(** * flow: context collection and OAuth token lifecycle

    A shallow embedding of the parts of the [flow] command-line assistant
    that its specification makes testable promises about:

    - [flow/utils/files.py]        (module [Files])
    - [flow/context/indexer.py]    (module [Indexer])
    - [flow/context/collector.py]  (module [Collector])
    - [flow/auth.py]               (modules [Json], [Base64], [Sha256], [Auth])

    Conventions of the embedding.

    - A Python [str] is a Rocq [string]; a character is its code point,
      so the embedding covers code points below 256.  [str.lower] is the
      ASCII case mapping.
    - Python [float] time stamps ([st_mtime], [expires_at], [time.time()])
      are integer seconds ([Z]); sizes are [Z].
    - A call that may raise returns a [result]: [Return v] or [Raise e].
    - The file system is a snapshot: a tree of [node]s.  Reading a file's
      text is an observation stored with the file, so that a read error is
      an input of the model and not an assumption.
    - The functions of [auth.py] are computations over a [World]: the
      token file, the clock, the token endpoint and a trace of the
      requests made and the warnings logged.
    - The libraries [json], [base64] and [hashlib] are embedded, so that
      the model runs; [pathspec] is a parameter. *)

From Stdlib Require Import ZArith NArith List String Ascii Bool Lia.
From Stdlib Require Import Sorting.Sorted Sorting.Permutation.
From Stdlib Require Import Structures.OrderedTypeEx.
From Stdlib Require Import DecimalString DecimalFacts DecimalPos DecimalN DecimalZ.
Import ListNotations.

Local Open Scope string_scope.
Local Open Scope Z_scope.

(* ================================================================== *)
(** * Python runtime: exceptions, results, strings, lists              *)
(* ================================================================== *)

Module Py.

(** The exception classes the modelled code raises or catches.  All of
    them derive from [Exception]. *)
Inductive exn : Type :=
| PermissionError
| IsADirectoryError
| FileNotFoundError
| OSError
| UnicodeDecodeError
| UnicodeEncodeError
| JSONDecodeError
| KeyError (key : string)
| TypeError
| AttributeError
| HTTPStatusError (status_code : Z)
| RequestError
| RuntimeError.

Inductive result (A : Type) : Type :=
| Return (a : A)
| Raise (e : exn).
Arguments Return {A} a.
Arguments Raise {A} e.

Definition is_raise {A} (r : result A) : bool :=
  match r with Raise _ => true | Return _ => false end.

(** ** Characters and strings *)

Definition LF : ascii := ascii_of_N 10.
Definition CR : ascii := ascii_of_N 13.
Definition nl : string := String LF "".

Definition lower_char (c : ascii) : ascii :=
  let n := N_of_ascii c in
  if ((65 <=? n) && (n <=? 90))%N then ascii_of_N (n + 32) else c.

(** [str.lower()] *)
Fixpoint lower (s : string) : string :=
  match s with
  | EmptyString => EmptyString
  | String c t => String (lower_char c) (lower t)
  end.

(** [s in collection] for a set or list of strings *)
Definition str_in (s : string) (l : list string) : bool :=
  existsb (String.eqb s) l.

(** [sep.join(parts)] *)
Definition join (sep : string) (parts : list string) : string :=
  String.concat sep parts.

(** [not s]: the empty string is falsy *)
Definition falsy (s : string) : bool :=
  match s with EmptyString => true | _ => false end.

(** The line boundaries of [str.splitlines] among code points below
    256: LF, VT, FF, CR, FS, GS, RS and NEL. *)
Definition is_linebreak (c : ascii) : bool :=
  let n := N_of_ascii c in
  existsb (N.eqb n) [10; 11; 12; 13; 28; 29; 30; 133]%N.

(** [cur] is the text of the line being read. *)
Fixpoint splitlines_from (cur : string) (s : string) : list string :=
  match s with
  | EmptyString => if falsy cur then [] else [cur]
  | String c t =>
      if Ascii.eqb c CR then
        match t with
        | String c2 t2 =>
            if Ascii.eqb c2 LF then cur :: splitlines_from "" t2
            else cur :: splitlines_from "" t
        | EmptyString => [cur]
        end
      else if is_linebreak c then cur :: splitlines_from "" t
      else splitlines_from (cur ++ String c "") t
  end.

(** [s.splitlines()] *)
Definition splitlines (s : string) : list string := splitlines_from "" s.

(** ** List slicing and sorting *)

(** [l[:n]] for a Python integer [n]: a negative bound counts from the
    end of the list. *)
Definition slice_to {A} (n : Z) (l : list A) : list A :=
  if n <? 0 then firstn (Z.to_nat (Z.of_nat (List.length l) + n)) l
  else firstn (Z.to_nat n) l.

(** Python's sort is stable.  [sort_by le] is the stable sort for the
    order [le] on the elements' keys: an element is inserted in front
    of the first element that it may precede, and the elements are
    inserted from the right, so equal keys keep their input order. *)
Section Sort.
Context {A : Type} (le : A -> A -> bool).

Fixpoint insert (x : A) (l : list A) : list A :=
  match l with
  | [] => [x]
  | y :: t => if le x y then x :: y :: t else y :: insert x t
  end.

Fixpoint sort_by (l : list A) : list A :=
  match l with
  | [] => []
  | x :: t => insert x (sort_by t)
  end.
End Sort.



End Py.
Import Py.

(* ================================================================== *)
(** * The file-system snapshot and [pathlib.Path]                      *)
(* ================================================================== *)

Module Fs.

(** What the snapshot records of a regular file. *)
Record filedata : Type := mkFile {
  fd_size : Z;                      (* stat().st_size *)
  fd_mtime : Z;                     (* stat().st_mtime *)
  fd_text : result string;          (* read_text() *)
  fd_text_utf8 : result string      (* read_text(encoding="utf-8", errors="replace") *)
}.

(** A directory entry.  A directory whose listing is denied has no
    children to show ([None]). *)
#[warnings="-register-all"]
Inductive node : Type :=
| File (name : string) (d : filedata)
| Dir (name : string) (children : option (list node))
| Other (name : string).          (* socket, dangling link, ... *)

Definition node_name (n : node) : string :=
  match n with File s _ | Dir s _ | Other s => s end.

Definition node_is_file (n : node) : bool :=
  match n with File _ _ => true | _ => false end.

Definition node_is_dir (n : node) : bool :=
  match n with Dir _ _ => true | _ => false end.

(** A [Path] resolved against the snapshot: the path relative to the
    scanned root, and the node found there. *)
Record Path : Type := mkPath {
  rel_path : string;               (* str(path.relative_to(root)) *)
  target : node
}.

Definition name (p : Path) : string := node_name (target p).
Definition is_file (p : Path) : bool := node_is_file (target p).
Definition is_dir (p : Path) : bool := node_is_dir (target p).

Definition st_size (p : Path) : Z :=
  match target p with File _ d => fd_size d | _ => 4096 end.

Definition st_mtime (p : Path) : Z :=
  match target p with File _ d => fd_mtime d | _ => 0 end.

(** [path.read_text()] *)
Definition read_text (p : Path) : result string :=
  match target p with
  | File _ d => fd_text d
  | Dir _ _ => Raise IsADirectoryError
  | Other _ => Raise OSError
  end.

(** [path.read_text(encoding="utf-8", errors="replace")] *)
Definition read_text_utf8 (p : Path) : result string :=
  match target p with
  | File _ d => fd_text_utf8 d
  | Dir _ _ => Raise IsADirectoryError
  | Other _ => Raise OSError
  end.

(** The part of [s] from its last dot on, if it has a dot. *)
Fixpoint last_dot_tail (s : string) : option string :=
  match s with
  | EmptyString => None
  | String c t =>
      match last_dot_tail t with
      | Some r => Some r
      | None => if Ascii.eqb c "." then Some s else None
      end
  end.

(** [PurePath.suffix] of a final component: with [i = name.rfind('.')],
    [name[i:]] when [0 < i < len(name) - 1] and the empty string
    otherwise. *)
Definition suffix_of (nm : string) : string :=
  match nm with
  | EmptyString => ""
  | String _ t =>
      match last_dot_tail t with
      | Some r => if (1 <? String.length r)%nat then r else ""
      | None => ""
      end
  end.

Definition suffix (p : Path) : string := suffix_of (name p).

(** What [iterdir] finds in a directory; [None] when listing it raises
    [PermissionError]. *)
Definition directory : Type := option (list node).

Definition entries_of (dir : directory) : list node :=
  match dir with Some l => l | None => [] end.

(** [root.rglob("*")]: every entry below the root, in the order the
    operating system lists them; a directory that cannot be listed
    contributes itself only. *)
Fixpoint rglob_node (prefix : string) (n : node) : list Path :=
  mkPath (prefix ++ node_name n) n ::
  match n with
  | Dir nm (Some cs) => flat_map (rglob_node (prefix ++ nm ++ "/")) cs
  | _ => []
  end.

Definition rglob (root : directory) : list Path :=
  flat_map (rglob_node "") (entries_of root).

(** [root / nm], when it exists *)
Definition child (root : directory) (nm : string) : option Path :=
  option_map (mkPath nm)
    (find (fun n => String.eqb (node_name n) nm) (entries_of root)).

End Fs.
Import Fs.

(* ================================================================== *)
(** * flow/utils/files.py                                              *)
(* ================================================================== *)

Module Files.

Definition BINARY_EXTENSIONS : list string :=
  [ ".png"; ".jpg"; ".jpeg"; ".gif"; ".ico"; ".svg"; ".webp";
    ".pdf"; ".doc"; ".docx"; ".xls"; ".xlsx";
    ".zip"; ".tar"; ".gz"; ".rar"; ".7z";
    ".exe"; ".dll"; ".so"; ".dylib";
    ".pyc"; ".pyo"; ".class"; ".o";
    ".woff"; ".woff2"; ".ttf"; ".eot";
    ".mp3"; ".mp4"; ".wav"; ".avi"; ".mov";
    ".db"; ".sqlite"; ".sqlite3" ].

Definition TEXT_EXTENSIONS : list string :=
  [ ".py"; ".js"; ".ts"; ".jsx"; ".tsx"; ".mjs"; ".cjs";
    ".java"; ".kt"; ".scala";
    ".c"; ".cpp"; ".h"; ".hpp"; ".cc";
    ".go"; ".rs"; ".swift";
    ".rb"; ".php"; ".pl"; ".pm";
    ".sh"; ".bash"; ".zsh"; ".fish";
    ".html"; ".css"; ".scss"; ".sass"; ".less";
    ".json"; ".yaml"; ".yml"; ".toml"; ".xml";
    ".md"; ".txt"; ".rst"; ".org";
    ".sql"; ".graphql";
    ".dockerfile"; ".env"; ".gitignore";
    ".conf"; ".cfg"; ".ini" ].

Definition is_binary_file (path : Path) : bool :=
  str_in (lower (suffix path)) BINARY_EXTENSIONS.

Definition is_text_file (path : Path) : bool :=
  let suffix := lower (suffix path) in
  if str_in suffix TEXT_EXTENSIONS then true
  else if falsy suffix
          && str_in (name path)
               ["Makefile"; "Dockerfile"; "Vagrantfile"; "Jenkinsfile"]
       then true
  else false.

(** [None] if the file cannot be read or is too large. *)
Definition read_file_safe (path : Path) (max_size : Z) : option string :=
  if st_size path >? max_size then None
  else match read_text_utf8 path with
       | Return s => Some s
       | Raise _ => None
       end.

Definition default_max_size : Z := 100000.

Definition ext_map : list (string * string) :=
  [ (".py", "python"); (".js", "javascript"); (".ts", "typescript");
    (".jsx", "jsx"); (".tsx", "tsx"); (".java", "java"); (".kt", "kotlin");
    (".go", "go"); (".rs", "rust"); (".c", "c"); (".cpp", "cpp");
    (".h", "c"); (".hpp", "cpp"); (".rb", "ruby"); (".php", "php");
    (".swift", "swift"); (".sh", "bash"); (".bash", "bash");
    (".html", "html"); (".css", "css"); (".scss", "scss");
    (".json", "json"); (".yaml", "yaml"); (".yml", "yaml");
    (".toml", "toml"); (".xml", "xml"); (".sql", "sql");
    (".md", "markdown") ].

Fixpoint dict_get (k : string) (d : list (string * string)) (default : string)
  : string :=
  match d with
  | [] => default
  | (k', v) :: t => if String.eqb k k' then v else dict_get k t default
  end.

Definition get_language_from_extension (path : Path) : string :=
  dict_get (lower (suffix path)) ext_map "text".

End Files.
Import Files.

(* ================================================================== *)
(** * The [pathspec] library                                           *)
(* ================================================================== *)

(** [pathspec.PathSpec.from_lines(style, patterns)] compiles the patterns
    or raises on a pattern it cannot compile; the compiled object answers
    [match_file(path)], and is falsy when it holds no pattern.  The
    library is not part of the repository: the development is parametric
    in it. *)
Record PathSpec : Type := mkPathSpec {
  match_file : string -> bool;
  truthy : bool                      (* bool(spec) *)
}.

Definition pathspec_lib : Type := string -> list string -> result PathSpec.

(** A dictionary keyed by strings, in insertion order: assigning to a
    key that is present replaces its value in place. *)
Module Dict.
Section Dict.
Context {V : Type}.

Fixpoint get (k : string) (d : list (string * V)) : option V :=
  match d with
  | [] => None
  | (k', v) :: t => if String.eqb k k' then Some v else get k t
  end.

Fixpoint set (k : string) (v : V) (d : list (string * V))
  : list (string * V) :=
  match d with
  | [] => [(k, v)]
  | (k', v') :: t =>
      if String.eqb k k' then (k, v) :: t else (k', v') :: set k v t
  end.

Definition values (d : list (string * V)) : list V := map snd d.
Definition keys (d : list (string * V)) : list string := map fst d.
End Dict.
End Dict.

(** [flow.config.ContextConfig] *)
Record ContextConfig : Type := mkContextConfig {
  max_files : Z;
  ignore : list string
}.

Definition default_context_config : ContextConfig :=
  {| max_files := 50;
     ignore := [".git"; "node_modules"; "__pycache__"; ".venv"] |}.

(* ================================================================== *)
(** * flow/context/indexer.py                                          *)
(* ================================================================== *)

Module Indexer.

Record FileInfo : Type := mkFileInfo {
  path : Path;
  relative_path : string;
  extension : string;
  size : Z;
  lines : option Z
}.

(** The literal [100_000] of [_create_file_info]. *)
Definition LINE_COUNT_CEILING : Z := 100000.

(** [FileIndexer._create_file_info]; the relative path is carried by
    [path]. *)
Definition _create_file_info (path : Path) : FileInfo :=
  let lines :=
    if is_text_file path && (st_size path <? LINE_COUNT_CEILING) then
      match read_text path with
      | Return s => Some (Z.of_nat (List.length (splitlines s)))
      | Raise _ => None
      end
    else None in
  {| path := path;
     relative_path := rel_path path;
     extension := lower (suffix path);
     size := st_size path;
     lines := lines |}.

Section WithPathspec.
Variable from_lines : pathspec_lib.

(** The ignore patterns of [build_index]: the configured ones, then
    the lines of the root's [.gitignore]. *)
Definition index_patterns (cfg : ContextConfig) (root : directory)
  : result (list string) :=
  match child root ".gitignore" with
  | Some gitignore_path =>
      match read_text gitignore_path with
      | Return s => Return (ignore cfg ++ splitlines s)%list
      | Raise e => Raise e
      end
  | None => Return (ignore cfg)
  end.

(** The files [build_index] enters into the index under a compiled
    ignore specification. *)
Definition indexed (spec : PathSpec) (p : Path) : Prop :=
  is_file p = true /\ is_binary_file p = false
  /\ match_file spec (rel_path p) = false.

(** One turn of the loop of [build_index]. *)
Definition index_step (spec : PathSpec)
    (index : list (string * FileInfo)) (file_path : Path)
  : list (string * FileInfo) :=
  if negb (is_file file_path) then index
  else if is_binary_file file_path then index
  else if match_file spec (rel_path file_path) then index
  else Dict.set (rel_path file_path) (_create_file_info file_path) index.

(** [FileIndexer.build_index]; returns the new [self._index]. *)
Definition build_index (cfg : ContextConfig) (root : directory)
  : result (list (string * FileInfo)) :=
  match index_patterns cfg root with
  | Raise e => Raise e
  | Return patterns =>
      match from_lines "gitignore" patterns with
      | Raise e => Raise e
      | Return spec => Return (fold_left (index_step spec) (rglob root) [])
      end
  end.
End WithPathspec.

End Indexer.

(* ================================================================== *)
(** * flow/context/collector.py                                        *)
(* ================================================================== *)

Module Collector.

Definition fence : string := "```".

(** [ContextCollector._format_file] *)
Definition _format_file (path : Path) : string :=
  match read_file_safe path default_max_size with
  | None => ""
  | Some content =>
      if falsy content then ""
      else
        let lang := get_language_from_extension path in
        "# " ++ name path ++ nl ++ fence ++ lang ++ nl ++ content ++ nl ++ fence
  end.

(** The sort key of [_find_files], most recent first. *)
Definition newer_first (a b : Path) : bool := st_mtime b <=? st_mtime a.




Section Tree.
Variable ignore : list string.


End Tree.




Section WithPathspec.
Variable from_lines : pathspec_lib.

(** The ignore patterns of [_find_files]: the lines of the root's
    [.gitignore], then the configured ones. *)
Definition find_patterns (cfg : ContextConfig) (path : directory)
  : result (list string) :=
  match child path ".gitignore" with
  | Some gitignore_path =>
      match read_text gitignore_path with
      | Return s => Return (splitlines s ++ ignore cfg)%list
      | Raise e => Raise e
      end
  | None => Return (ignore cfg)
  end.

(** The files that survive the filters of [_find_files], in the order
    of the walk. *)
Definition candidates (spec : PathSpec) (path : directory) : list Path :=
  filter (fun file_path =>
            is_file file_path
            && negb (is_binary_file file_path)
            && negb (truthy spec && match_file spec (rel_path file_path)))
         (rglob path).

(** [ContextCollector._find_files] *)
Definition _find_files (cfg : ContextConfig) (path : directory)
  : result (list Path) :=
  match find_patterns cfg path with
  | Raise e => Raise e
  | Return patterns =>
      match from_lines "gitwildmatch" patterns with
      | Raise e => Raise e
      | Return spec => Return (sort_by newer_first (candidates spec path))
      end
  end.

(** The blocks [_collect_directory] appends to [parts]. *)
Definition blocks (files : list Path) : list string :=
  filter (fun formatted => negb (falsy formatted))
         (map _format_file files).

(** [ContextCollector._collect_directory] *)
Definition _collect_directory (cfg : ContextConfig) (path : directory)
  : result string :=
  match _find_files cfg path with
  | Raise e => Raise e
  | Return files =>
      Return (join (nl ++ nl) (blocks (slice_to (max_files cfg) files)))
  end.

(** [ContextCollector.collect_from_path] *)
Definition collect_from_path (cfg : ContextConfig) (path : Path)
  : result string :=
  match target path with
  | File _ _ => Return (_format_file path)
  | Dir _ sub => _collect_directory cfg sub
  | Other _ => Return ""
  end.
End WithPathspec.

End Collector.

(* ================================================================== *)
(** * Python values and the [json] module                              *)
(* ================================================================== *)

(** The values that [json.load] produces and [json.dump] accepts.  The
    fields of a Python object are not checked against their annotations,
    so the fields of [TokenData] below hold values of this type.

    The embedding has integers for numbers and code points below 256 for
    characters.  A JSON text with a number that has a fraction or an
    exponent, or with an escape of a code point above 255, denotes a value outside
    the embedding; [loads] does not accept it. *)
Module Json.

#[warnings="-register-all"]
Inductive value : Type :=
| VNone
| VBool (b : bool)
| VInt (n : Z)
| VStr (s : string)
| VList (items : list value)
| VDict (d : list (string * value)).

(** ** Encoding: [json.dumps(v, indent=2)], with [ensure_ascii] *)

Definition hex_digit (n : N) : ascii :=
  if (n <? 10)%N then ascii_of_N (48 + n) else ascii_of_N (87 + n).

(** ["\\u%04x"] of a code point below 256 *)
Definition escape_u (n : N) : string :=
  String "\" (String "u" (String "0" (String "0"
    (String (hex_digit (n / 16)) (String (hex_digit (n mod 16)) ""))))).

Definition escape_char (c : ascii) : string :=
  let n := N_of_ascii c in
  if (n =? 34)%N then String "\" (String c "")
  else if (n =? 92)%N then String "\" (String c "")
  else if (n =? 10)%N then String "\" "n"
  else if (n =? 13)%N then String "\" "r"
  else if (n =? 9)%N then String "\" "t"
  else if (n =? 8)%N then String "\" "b"
  else if (n =? 12)%N then String "\" "f"
  else if ((n <? 32) || (126 <? n))%N then escape_u n
  else String c "".

Fixpoint escape (s : string) : string :=
  match s with
  | EmptyString => ""
  | String c t => escape_char c ++ escape t
  end.

Definition quote : ascii := ascii_of_N 34.

Definition encode_string (s : string) : string :=
  String quote (escape s ++ String quote "").

Definition encode_int (n : Z) : string :=
  DecimalString.NilZero.string_of_int (Z.to_int n).

Fixpoint spaces (n : nat) : string :=
  match n with O => "" | S k => String " " (spaces k) end.

Definition newline_indent (level : nat) : string :=
  nl ++ spaces (2 * level).

Fixpoint dumps_at (level : nat) (v : value) : string :=
  match v with
  | VNone => "null"
  | VBool true => "true"
  | VBool false => "false"
  | VInt n => encode_int n
  | VStr s => encode_string s
  | VList [] => "[]"
  | VList items =>
      "[" ++ newline_indent (S level)
          ++ join ("," ++ newline_indent (S level))
                  (map (dumps_at (S level)) items)
          ++ newline_indent level ++ "]"
  | VDict [] => "{}"
  | VDict d =>
      "{" ++ newline_indent (S level)
          ++ join ("," ++ newline_indent (S level))
                  (map (fun kv => encode_string (fst kv) ++ ": "
                                  ++ dumps_at (S level) (snd kv)) d)
          ++ newline_indent level ++ "}"
  end.

Definition dumps (v : value) : string := dumps_at 0 v.

(** ** Decoding: [json.loads(s)] *)

Definition is_ws (c : ascii) : bool :=
  let n := N_of_ascii c in
  existsb (N.eqb n) [32; 9; 10; 13]%N.

Fixpoint skip_ws (s : string) : string :=
  match s with
  | String c t => if is_ws c then skip_ws t else s
  | EmptyString => s
  end.

Definition hex_value (c : ascii) : option N :=
  let n := N_of_ascii c in
  if ((48 <=? n) && (n <=? 57))%N then Some (n - 48)%N
  else if ((97 <=? n) && (n <=? 102))%N then Some (n - 87)%N
  else if ((65 <=? n) && (n <=? 70))%N then Some (n - 55)%N
  else None.

Definition hex4 (a b c d : ascii) : option N :=
  match hex_value a, hex_value b, hex_value c, hex_value d with
  | Some x, Some y, Some z, Some w => Some (((x * 16 + y) * 16 + z) * 16 + w)%N
  | _, _, _, _ => None
  end.

(** The character a one-letter escape stands for. *)
Definition unescape (e : ascii) : option ascii :=
  let n := N_of_ascii e in
  if (n =? 34)%N then Some e
  else if (n =? 92)%N then Some e
  else if (n =? 47)%N then Some e
  else if (n =? 98)%N then Some (ascii_of_N 8)
  else if (n =? 102)%N then Some (ascii_of_N 12)
  else if (n =? 110)%N then Some LF
  else if (n =? 114)%N then Some CR
  else if (n =? 116)%N then Some (ascii_of_N 9)
  else None.

Definition prepend (c : ascii) (r : option (string * string))
  : option (string * string) :=
  match r with
  | Some (s, rest) => Some (String c s, rest)
  | None => None
  end.

(** The text of a string literal after its opening quote: the decoded
    string and what follows the closing quote. *)
Fixpoint scan_string (s : string) : option (string * string) :=
  match s with
  | EmptyString => None
  | String c t =>
      let n := N_of_ascii c in
      if (n =? 34)%N then Some ("", t)
      else if (n =? 92)%N then
        match t with
        | String e t' =>
            if (N_of_ascii e =? 117)%N then
              match t' with
              | String h1 (String h2 (String h3 (String h4 t''))) =>
                  match hex4 h1 h2 h3 h4 with
                  | Some cp =>
                      if (cp <? 256)%N
                      then prepend (ascii_of_N cp) (scan_string t'')
                      else None
                  | None => None
                  end
              | _ => None
              end
            else
              match unescape e with
              | Some ch => prepend ch (scan_string t')
              | None => None
              end
        | EmptyString => None
        end
      else if (n <? 32)%N then None
      else prepend c (scan_string t)
  end.

Definition digit_of (c : ascii) : option (Decimal.uint -> Decimal.uint) :=
  let n := N_of_ascii c in
  if (n =? 48)%N then Some Decimal.D0
  else if (n =? 49)%N then Some Decimal.D1
  else if (n =? 50)%N then Some Decimal.D2
  else if (n =? 51)%N then Some Decimal.D3
  else if (n =? 52)%N then Some Decimal.D4
  else if (n =? 53)%N then Some Decimal.D5
  else if (n =? 54)%N then Some Decimal.D6
  else if (n =? 55)%N then Some Decimal.D7
  else if (n =? 56)%N then Some Decimal.D8
  else if (n =? 57)%N then Some Decimal.D9
  else None.

(** The longest run of digits at the head of [s], and what follows. *)
Fixpoint scan_digits (s : string) : Decimal.uint * string :=
  match s with
  | EmptyString => (Decimal.Nil, s)
  | String c t =>
      match digit_of c with
      | Some d => let (u, rest) := scan_digits t in (d u, rest)
      | None => (Decimal.Nil, s)
      end
  end.

(** The integer part of a number: [0], or a digit from 1 to 9 followed
    by digits. *)
Definition scan_nat (s : string) : option (N * string) :=
  match s with
  | EmptyString => None
  | String c t =>
      if (N_of_ascii c =? 48)%N then Some (0%N, t)
      else match digit_of c with
           | Some _ => let (u, rest) := scan_digits s in Some (N.of_uint u, rest)
           | None => None
           end
  end.

(** A number.  One that goes on with a fraction or an exponent is a
    float. *)
Definition scan_number (s : string) : option (Z * string) :=
  let signed :=
    match s with
    | String c t =>
        if (N_of_ascii c =? 45)%N
        then match scan_nat t with
             | Some (n, rest) => Some (- Z.of_N n, rest)
             | None => None
             end
        else match scan_nat s with
             | Some (n, rest) => Some (Z.of_N n, rest)
             | None => None
             end
    | EmptyString => None
    end in
  match signed with
  | Some (n, rest) =>
      match rest with
      | String c _ =>
          if existsb (N.eqb (N_of_ascii c)) [46; 101; 69]%N then None
          else Some (n, rest)
      | EmptyString => Some (n, rest)
      end
  | None => None
  end.

(** [s] without the prefix [p], if it starts with it. *)
Fixpoint strip_prefix (p s : string) : option string :=
  match p with
  | EmptyString => Some s
  | String a p' =>
      match s with
      | String b s' => if Ascii.eqb a b then strip_prefix p' s' else None
      | EmptyString => None
      end
  end.

(** Recursive descent; [fuel] bounds the nesting and the number of
    elements read.  [parse_elements] starts at an element of an array,
    [parse_members] at the key of a member of an object; a repeated key
    keeps its place and takes the later value, as in a Python [dict]. *)
Fixpoint parse_value (fuel : nat) (s : string) : option (value * string) :=
  match fuel with
  | O => None
  | S fuel' =>
      match s with
      | EmptyString => None
      | String c t =>
          let n := N_of_ascii c in
          if (n =? 34)%N then
            match scan_string t with
            | Some (str, rest) => Some (VStr str, rest)
            | None => None
            end
          else if (n =? 123)%N then
            match skip_ws t with
            | String c' t' =>
                if (N_of_ascii c' =? 125)%N then Some (VDict [], t')
                else
                  match parse_members fuel' (skip_ws t) [] with
                  | Some (d, rest) => Some (VDict d, rest)
                  | None => None
                  end
            | EmptyString => None
            end
          else if (n =? 91)%N then
            match skip_ws t with
            | String c' t' =>
                if (N_of_ascii c' =? 93)%N then Some (VList [], t')
                else
                  match parse_elements fuel' (skip_ws t) [] with
                  | Some (items, rest) => Some (VList items, rest)
                  | None => None
                  end
            | EmptyString => None
            end
          else
            match strip_prefix "null" s, strip_prefix "true" s,
                  strip_prefix "false" s with
            | Some rest, _, _ => Some (VNone, rest)
            | _, Some rest, _ => Some (VBool true, rest)
            | _, _, Some rest => Some (VBool false, rest)
            | None, None, None =>
                match scan_number s with
                | Some (z, rest) => Some (VInt z, rest)
                | None => None
                end
            end
      end
  end

with parse_elements (fuel : nat) (s : string) (acc : list value)
  : option (list value * string) :=
  match fuel with
  | O => None
  | S fuel' =>
      match parse_value fuel' s with
      | Some (v, rest) =>
          match skip_ws rest with
          | String c t =>
              if (N_of_ascii c =? 44)%N
              then parse_elements fuel' (skip_ws t) (acc ++ [v])%list
              else if (N_of_ascii c =? 93)%N then Some ((acc ++ [v])%list, t)
              else None
          | EmptyString => None
          end
      | None => None
      end
  end

with parse_members (fuel : nat) (s : string) (acc : list (string * value))
  : option (list (string * value) * string) :=
  match fuel with
  | O => None
  | S fuel' =>
      match s with
      | String q t =>
          if (N_of_ascii q =? 34)%N then
            match scan_string t with
            | Some (k, rest) =>
                match skip_ws rest with
                | String c t2 =>
                    if (N_of_ascii c =? 58)%N then
                      match parse_value fuel' (skip_ws t2) with
                      | Some (v, rest2) =>
                          match skip_ws rest2 with
                          | String c3 t3 =>
                              if (N_of_ascii c3 =? 44)%N
                              then parse_members fuel' (skip_ws t3)
                                     (Dict.set k v acc)
                              else if (N_of_ascii c3 =? 125)%N
                              then Some (Dict.set k v acc, t3)
                              else None
                          | EmptyString => None
                          end
                      | None => None
                      end
                    else None
                | EmptyString => None
                end
            | None => None
            end
          else None
      | EmptyString => None
      end
  end.

(** [json.loads(s)]: one value, white space around it, nothing else. *)
Definition loads (s : string) : result value :=
  match parse_value (2 * String.length s + 2) (skip_ws s) with
  | Some (v, rest) =>
      match skip_ws rest with
      | EmptyString => Return v
      | _ => Raise JSONDecodeError
      end
  | None => Raise JSONDecodeError
  end.

(** ** Operations of the values *)

(** [v[key]] *)
Definition getitem (v : value) (key : string) : result value :=
  match v with
  | VDict d =>
      match Dict.get key d with
      | Some x => Return x
      | None => Raise (KeyError key)
      end
  | _ => Raise TypeError
  end.

(** [v.get(key, default)] *)
Definition get (v : value) (key : string) (default : value) : result value :=
  match v with
  | VDict d =>
      match Dict.get key d with
      | Some x => Return x
      | None => Return default
      end
  | _ => Raise AttributeError
  end.

(** The number a value stands for in arithmetic with a number. *)
Definition as_number (v : value) : result Z :=
  match v with
  | VInt n => Return n
  | VBool b => Return (if b then 1 else 0)
  | _ => Raise TypeError
  end.

End Json.

(* ================================================================== *)
(** * [bytes], [base64] and [hashlib.sha256]                           *)
(* ================================================================== *)

Module Bytes.

(** The byte with value [n mod 256]. *)
Definition byte_of (n : N) : Byte.byte :=
  match Byte.of_N (n mod 256) with
  | Some b => b
  | None => Byte.x00
  end.

(** [bytes.decode("ascii")] *)
Fixpoint decode_ascii (l : list Byte.byte) : result string :=
  match l with
  | [] => Return ""
  | b :: t =>
      if (Byte.to_N b <? 128)%N then
        match decode_ascii t with
        | Return s => Return (String (ascii_of_byte b) s)
        | Raise e => Raise e
        end
      else Raise UnicodeDecodeError
  end.

(** [str.encode("ascii")] *)
Fixpoint encode_ascii (s : string) : result (list Byte.byte) :=
  match s with
  | EmptyString => Return []
  | String c t =>
      if (N_of_ascii c <? 128)%N then
        match encode_ascii t with
        | Return l => Return (byte_of_ascii c :: l)
        | Raise e => Raise e
        end
      else Raise UnicodeEncodeError
  end.

Fixpoint drop_while {A} (p : A -> bool) (l : list A) : list A :=
  match l with
  | [] => []
  | x :: t => if p x then drop_while p t else l
  end.

(** [l.rstrip(chars)] for a single byte [ch] *)
Definition rstrip (ch : Byte.byte) (l : list Byte.byte) : list Byte.byte :=
  rev (drop_while (Byte.eqb ch) (rev l)).

End Bytes.

Module Base64.
Import Bytes.
Local Open Scope N_scope.

(** The alphabet of [base64.urlsafe_b64encode]: the standard one with
    [-] and [_] in the place of [+] and [/]. *)
Definition alphabet : list Byte.byte :=
  list_byte_of_string
    "ABCDEFGHIJKLMNOPQRSTUVWXYZabcdefghijklmnopqrstuvwxyz0123456789-_".

Definition pad : Byte.byte := byte_of_ascii "=".

Definition digit (i : N) : Byte.byte := nth (N.to_nat i) alphabet pad.

(** [base64.urlsafe_b64encode] *)
Fixpoint urlsafe_b64encode (l : list Byte.byte) : list Byte.byte :=
  match l with
  | [] => []
  | [a] =>
      let x := Byte.to_N a in
      [digit (x / 4); digit ((x mod 4) * 16); pad; pad]
  | [a; b] =>
      let x := Byte.to_N a in
      let y := Byte.to_N b in
      [digit (x / 4); digit ((x mod 4) * 16 + y / 16);
       digit ((y mod 16) * 4); pad]
  | a :: b :: c :: t =>
      let x := Byte.to_N a in
      let y := Byte.to_N b in
      let z := Byte.to_N c in
      digit (x / 4) :: digit ((x mod 4) * 16 + y / 16)
      :: digit ((y mod 16) * 4 + z / 64) :: digit (z mod 64)
      :: urlsafe_b64encode t
  end.

(** The position of a byte in a list. *)
Fixpoint index_in (b : Byte.byte) (l : list Byte.byte) : option N :=
  match l with
  | [] => None
  | x :: t =>
      if Byte.eqb b x then Some 0
      else option_map N.succ (index_in b t)
  end.

Definition value_of (c : ascii) : option N :=
  index_in (byte_of_ascii c) alphabet.

(** The inverse the specification speaks of when it decodes a challenge:
    the bytes that a URL-safe base64 text without padding stands for
    (RFC 4648, section 5).  The repository only encodes.  Four characters
    give three bytes; a last group of two or three characters gives one
    or two bytes. *)
Fixpoint urlsafe_b64decode_nopad (s : string) : option (list Byte.byte) :=
  match s with
  | EmptyString => Some []
  | String c0 (String c1 EmptyString) =>
      match value_of c0, value_of c1 with
      | Some i0, Some i1 => Some [byte_of (i0 * 4 + i1 / 16)]
      | _, _ => None
      end
  | String c0 (String c1 (String c2 EmptyString)) =>
      match value_of c0, value_of c1, value_of c2 with
      | Some i0, Some i1, Some i2 =>
          Some [byte_of (i0 * 4 + i1 / 16);
                byte_of ((i1 mod 16) * 16 + i2 / 4)]
      | _, _, _ => None
      end
  | String c0 (String c1 (String c2 (String c3 t))) =>
      match value_of c0, value_of c1, value_of c2, value_of c3,
            urlsafe_b64decode_nopad t with
      | Some i0, Some i1, Some i2, Some i3, Some rest =>
          Some (byte_of (i0 * 4 + i1 / 16)
                :: byte_of ((i1 mod 16) * 16 + i2 / 4)
                :: byte_of ((i2 mod 4) * 64 + i3) :: rest)
      | _, _, _, _, _ => None
      end
  | String _ EmptyString => None
  end.

End Base64.

(** SHA-256 as FIPS 180-4 defines it: [hashlib.sha256(data).digest()]. *)
Module Sha256.
Import Bytes.
Local Open Scope N_scope.

Definition w32 : N := 2 ^ 32.

Definition add32 (x y : N) : N := (x + y) mod w32.
Definition rotr (n x : N) : N :=
  N.lor (N.shiftr x n) (N.shiftl x (32 - n) mod w32).
Definition shr (n x : N) : N := N.shiftr x n.
Definition not32 (x : N) : N := N.lxor x (w32 - 1).

Definition Ch (x y z : N) : N := N.lxor (N.land x y) (N.land (not32 x) z).
Definition Maj (x y z : N) : N :=
  N.lxor (N.lxor (N.land x y) (N.land x z)) (N.land y z).
Definition Sigma0 (x : N) : N := N.lxor (N.lxor (rotr 2 x) (rotr 13 x)) (rotr 22 x).
Definition Sigma1 (x : N) : N := N.lxor (N.lxor (rotr 6 x) (rotr 11 x)) (rotr 25 x).
Definition sigma0 (x : N) : N := N.lxor (N.lxor (rotr 7 x) (rotr 18 x)) (shr 3 x).
Definition sigma1 (x : N) : N := N.lxor (N.lxor (rotr 17 x) (rotr 19 x)) (shr 10 x).

(** The constants are the first 32 bits of the fractional parts of the
    square roots (initial hash value) and of the cube roots (round
    constants) of the first primes. *)
Definition primes : list N :=
  [ 2; 3; 5; 7; 11; 13; 17; 19; 23; 29; 31; 37; 41; 43; 47; 53;
    59; 61; 67; 71; 73; 79; 83; 89; 97; 101; 103; 107; 109; 113; 127; 131;
    137; 139; 149; 151; 157; 163; 167; 173; 179; 181; 191; 193; 197; 199;
    211; 223; 227; 229; 233; 239; 241; 251; 257; 263; 269; 271; 277; 281;
    283; 293; 307; 311 ].

(** The largest [r] below [2 ^ bits] with [r ^ 3 <= n], bit by bit. *)
Fixpoint cube_root_bits (bits : nat) (n r : N) : N :=
  match bits with
  | O => r
  | S k =>
      let r' := r + 2 ^ N.of_nat k in
      cube_root_bits k n (if r' * r' * r' <=? n then r' else r)
  end.

Definition frac_sqrt (p : N) : N := N.sqrt (p * 2 ^ 64) mod w32.
Definition frac_cbrt (p : N) : N := cube_root_bits 36 (p * 2 ^ 96) 0 mod w32.

Definition H0 : list N := Eval vm_compute in map frac_sqrt (firstn 8 primes).
Definition K : list N := Eval vm_compute in map frac_cbrt primes.

(** Big-endian conversions *)
Definition word_of_bytes (a b c d : Byte.byte) : N :=
  ((Byte.to_N a * 256 + Byte.to_N b) * 256 + Byte.to_N c) * 256 + Byte.to_N d.

Definition bytes_of_word (w : N) : list Byte.byte :=
  [byte_of (w / 2 ^ 24); byte_of (w / 2 ^ 16); byte_of (w / 2 ^ 8); byte_of w].

Definition bytes_of_length (bits : N) : list Byte.byte :=
  (bytes_of_word (bits / w32) ++ bytes_of_word (bits mod w32))%list.

Fixpoint words_of_bytes (l : list Byte.byte) : list N :=
  match l with
  | a :: b :: c :: d :: t => word_of_bytes a b c d :: words_of_bytes t
  | _ => []
  end.

(** The message followed by the bit 1, zero bits up to 56 modulo 64
    bytes, and the length of the message in bits. *)
Definition padding (len : N) : list Byte.byte :=
  let zeros := (119 - len mod 64) mod 64 in
  (Byte.x80 :: repeat Byte.x00 (N.to_nat zeros) ++ bytes_of_length (8 * len))%list.

Definition padded (msg : list Byte.byte) : list Byte.byte :=
  (msg ++ padding (N.of_nat (List.length msg)))%list.

(** The words 16 to 63 of the message schedule; [w] holds the sixteen
    words before the next one. *)
Fixpoint schedule (n : nat) (w : list N) : list N :=
  match n with
  | O => []
  | S k =>
      let next :=
        add32 (add32 (sigma1 (nth 14 w 0)) (nth 9 w 0))
              (add32 (sigma0 (nth 1 w 0)) (nth 0 w 0)) in
      next :: schedule k (tl w ++ [next])%list
  end.

Record state : Type := mkState {
  sa : N; sb : N; sc : N; sd : N; se : N; sf : N; sg : N; sh : N
}.

Definition round (s : state) (kw : N * N) : state :=
  let (k, w) := kw in
  let t1 := add32 (add32 (add32 (sh s) (Sigma1 (se s)))
                         (add32 (Ch (se s) (sf s) (sg s)) k)) w in
  let t2 := add32 (Sigma0 (sa s)) (Maj (sa s) (sb s) (sc s)) in
  mkState (add32 t1 t2) (sa s) (sb s) (sc s)
          (add32 (sd s) t1) (se s) (sf s) (sg s).

Definition compress (h : state) (block : list N) : state :=
  let w := (block ++ schedule 48 block)%list in
  let s := fold_left round (combine K w) h in
  mkState (add32 (sa h) (sa s)) (add32 (sb h) (sb s))
          (add32 (sc h) (sc s)) (add32 (sd h) (sd s))
          (add32 (se h) (se s)) (add32 (sf h) (sf s))
          (add32 (sg h) (sg s)) (add32 (sh h) (sh s)).

(** The blocks of sixteen words of a padded message. *)
Fixpoint blocks (n : nat) (w : list N) : list (list N) :=
  match n with
  | O => []
  | S k =>
      match w with
      | [] => []
      | _ => firstn 16 w :: blocks k (skipn 16 w)
      end
  end.

Definition initial : state :=
  mkState (nth 0 H0 0) (nth 1 H0 0) (nth 2 H0 0) (nth 3 H0 0)
          (nth 4 H0 0) (nth 5 H0 0) (nth 6 H0 0) (nth 7 H0 0).

Definition sha256 (msg : list Byte.byte) : list Byte.byte :=
  let w := words_of_bytes (padded msg) in
  let s := fold_left compress (blocks (List.length w) w) initial in
  (bytes_of_word (sa s) ++ bytes_of_word (sb s) ++ bytes_of_word (sc s)
   ++ bytes_of_word (sd s) ++ bytes_of_word (se s) ++ bytes_of_word (sf s)
   ++ bytes_of_word (sg s) ++ bytes_of_word (sh s))%list.

End Sha256.

(* ================================================================== *)
(** * flow/auth.py                                                     *)
(* ================================================================== *)

Module Auth.
Import Json Bytes.

Definition CLIENT_ID : string := "9d1c250a-e61b-44d9-88ed-5944d1962f5e".
Definition TOKEN_URL : string := "https://console.anthropic.com/v1/oauth/token".
Definition REDIRECT_URI : string :=
  "https://console.anthropic.com/oauth/code/callback".

Record TokenData : Type := mkTokenData {
  access_token : value;
  refresh_token : value;
  expires_at : value
}.

(** ** PKCE *)

(** [secrets.token_urlsafe(nbytes)], given the bytes that
    [secrets.token_bytes(nbytes)] draws. *)
Definition token_urlsafe (tok : list Byte.byte) : result string :=
  decode_ascii (rstrip Base64.pad (Base64.urlsafe_b64encode tok)).

(** [generate_pkce()], given the 32 random bytes it draws. *)
Definition generate_pkce (tok : list Byte.byte) : result (string * string) :=
  match token_urlsafe tok with
  | Raise e => Raise e
  | Return code_verifier =>
      match encode_ascii code_verifier with
      | Raise e => Raise e
      | Return verifier_bytes =>
          let digest := Sha256.sha256 verifier_bytes in
          match decode_ascii
                  (rstrip Base64.pad (Base64.urlsafe_b64encode digest)) with
          | Raise e => Raise e
          | Return code_challenge => Return (code_verifier, code_challenge)
          end
      end
  end.

(** ** The world of the token store *)

(** [~/.config/flow/auth.json].  The process owns the file and its
    directory: opening it does not fail. *)
Record auth_file : Type := mkAuthFile {
  content : string;
  mode : Z
}.

(** What a POST to the token endpoint comes to: the connection fails, or
    a response arrives. *)
Inductive post_outcome : Type :=
| ConnectError
| Response (status_code : Z) (text : string).

Inductive event : Type :=
| Posted (url : string) (data : list (string * value))
| Warned (msg : string).

Record World : Type := mkWorld {
  AUTH_FILE : option auth_file;
  umask : Z;
  clock : nat -> Z;          (* the successive readings of time.time() *)
  ticks : nat;               (* how many were taken *)
  server : nat -> list (string * value) -> post_outcome;
                             (* the answer to the n-th POST *)
  trace : list event         (* most recent first *)
}.

Definition set_file (f : option auth_file) (w : World) : World :=
  mkWorld f (umask w) (clock w) (ticks w) (server w) (trace w).

Definition log_event (e : event) (w : World) : World :=
  mkWorld (AUTH_FILE w) (umask w) (clock w) (ticks w) (server w) (e :: trace w).

Definition tick (w : World) : World :=
  mkWorld (AUTH_FILE w) (umask w) (clock w) (S (ticks w)) (server w) (trace w).

Definition is_post (e : event) : bool :=
  match e with Posted _ _ => true | Warned _ => false end.

(** The POSTs made so far, oldest first. *)
Definition posts (w : World) : list event := rev (filter is_post (trace w)).

(** The next reading of the clock. *)
Definition now (w : World) : Z := clock w (ticks w).

(** ** Computations that change the world and may raise *)

Definition M (A : Type) : Type := World -> result A * World.

Definition ret {A} (a : A) : M A := fun w => (Return a, w).
Definition raise {A} (e : exn) : M A := fun w => (Raise e, w).
Definition lift {A} (r : result A) : M A := fun w => (r, w).

Definition bind {A B} (m : M A) (k : A -> M B) : M B :=
  fun w =>
    match m w with
    | (Return a, w') => k a w'
    | (Raise e, w') => (Raise e, w')
    end.

(** [try: body except ...: handler] *)
Definition try_except {A} (body : M A) (handler : exn -> M A) : M A :=
  fun w =>
    match body w with
    | (Return a, w') => (Return a, w')
    | (Raise e, w') => handler e w'
    end.

Notation "x <- m ;; k" := (bind m (fun x => k))
  (at level 61, m at next level, right associativity).

(** [time.time()] *)
Definition time_time : M Z := fun w => (Return (now w), tick w).

(** [AUTH_FILE.exists()] *)
Definition file_exists : M bool :=
  fun w => (Return (match AUTH_FILE w with Some _ => true | None => false end), w).

(** [open(AUTH_FILE).read()] *)
Definition file_read : M string :=
  fun w =>
    match AUTH_FILE w with
    | Some f => (Return (content f), w)
    | None => (Raise FileNotFoundError, w)
    end.

(** [open(AUTH_FILE, "w").write(text)]: a new file is created with mode
    [0o666 & ~umask], an existing file keeps its mode. *)
Definition file_write (text : string) : M unit :=
  fun w =>
    let m := match AUTH_FILE w with
             | Some f => mode f
             | None => Z.ldiff 438 (umask w)
             end in
    (Return tt, set_file (Some (mkAuthFile text m)) w).

(** [AUTH_FILE.chmod(m)] *)
Definition file_chmod (m : Z) : M unit :=
  fun w =>
    match AUTH_FILE w with
    | Some f => (Return tt, set_file (Some (mkAuthFile (content f) m)) w)
    | None => (Raise FileNotFoundError, w)
    end.

(** [AUTH_FILE.unlink()] *)
Definition file_unlink : M unit :=
  fun w =>
    match AUTH_FILE w with
    | Some f => (Return tt, set_file None w)
    | None => (Raise FileNotFoundError, w)
    end.

(** [logger.warning(msg, ...)]; the trace keeps the message without its
    arguments. *)
Definition logger_warning (msg : string) : M unit :=
  fun w => (Return tt, log_event (Warned msg) w).

(** [httpx.Client().post(url, data=data)] *)
Definition client_post (url : string) (data : list (string * value))
  : M (Z * string) :=
  fun w =>
    let w' := log_event (Posted url data) w in
    match server w (List.length (posts w)) data with
    | ConnectError => (Raise RequestError, w')
    | Response status body => (Return (status, body), w')
    end.

(** [response.raise_for_status()]: any status outside 2xx raises. *)
Definition raise_for_status (response : Z * string) : M unit :=
  let status := fst response in
  if (200 <=? status) && (status <=? 299) then ret tt
  else raise (HTTPStatusError status).

(** ** The functions of the module *)

Definition exchange_code (code code_verifier : string) : M TokenData :=
  let data :=
    [ ("grant_type", VStr "authorization_code");
      ("client_id", VStr CLIENT_ID);
      ("code", VStr code);
      ("redirect_uri", VStr REDIRECT_URI);
      ("code_verifier", VStr code_verifier) ] in
  response <- client_post TOKEN_URL data ;;
  _ <- raise_for_status response ;;
  token_data <- lift (loads (snd response)) ;;
  expires_in <- lift (get token_data "expires_in" (VInt 3600)) ;;
  t <- time_time ;;
  seconds <- lift (as_number expires_in) ;;
  let expires_at := t + seconds in
  access <- lift (getitem token_data "access_token") ;;
  refresh <- lift (getitem token_data "refresh_token") ;;
  ret (mkTokenData access refresh (VInt expires_at)).

Definition refresh_tokens (refresh_token : value) : M TokenData :=
  let data :=
    [ ("grant_type", VStr "refresh_token");
      ("client_id", VStr CLIENT_ID);
      ("refresh_token", refresh_token) ] in
  response <- client_post TOKEN_URL data ;;
  _ <- raise_for_status response ;;
  token_data <- lift (loads (snd response)) ;;
  expires_in <- lift (get token_data "expires_in" (VInt 3600)) ;;
  t <- time_time ;;
  seconds <- lift (as_number expires_in) ;;
  let expires_at := t + seconds in
  access <- lift (getitem token_data "access_token") ;;
  refresh <- lift (get token_data "refresh_token" refresh_token) ;;
  ret (mkTokenData access refresh (VInt expires_at)).

Definition save_tokens (token_data : TokenData) : M unit :=
  let data :=
    VDict [ ("access_token", access_token token_data);
            ("refresh_token", refresh_token token_data);
            ("expires_at", expires_at token_data) ] in
  _ <- file_write (dumps data) ;;
  file_chmod 384.

Definition load_tokens : M (option TokenData) :=
  present <- file_exists ;;
  if negb present then ret None
  else
    try_except
      (text <- file_read ;;
       data <- lift (loads text) ;;
       access <- lift (getitem data "access_token") ;;
       refresh <- lift (getitem data "refresh_token") ;;
       expires <- lift (getitem data "expires_at") ;;
       ret (Some (mkTokenData access refresh expires)))
      (fun e =>
         match e with
         | JSONDecodeError | KeyError _ => ret None
         | _ => raise e
         end).

Definition delete_tokens : M bool :=
  present <- file_exists ;;
  if present then _ <- file_unlink ;; ret true
  else ret false.

(** [get_access_token()]; Python's [None] is [VNone]. *)
Definition get_access_token : M value :=
  loaded <- load_tokens ;;
  match loaded with
  | None => ret VNone
  | Some token_data =>
      t <- time_time ;;
      expires <- lift (as_number (expires_at token_data)) ;;
      if t >=? expires - 300 then
        try_except
          (token_data' <- refresh_tokens (refresh_token token_data) ;;
           _ <- save_tokens token_data' ;;
           ret (access_token token_data'))
          (fun e =>
             match e with
             | HTTPStatusError _ =>
                 _ <- logger_warning "Token refresh failed with HTTP error" ;;
                 ret VNone
             | RequestError =>
                 _ <- logger_warning "Token refresh failed with network error" ;;
                 ret VNone
             | _ =>
                 _ <- logger_warning "Token refresh failed with unexpected error" ;;
                 ret VNone
             end)
      else ret (access_token token_data)
  end.

Definition is_authenticated : M bool :=
  token <- get_access_token ;;
  ret (match token with VNone => false | _ => true end).

Definition complete_login (code code_verifier : string) : M TokenData :=
  token_data <- exchange_code code code_verifier ;;
  _ <- save_tokens token_data ;;
  ret token_data.

(** A record whose fields have the types the class annotates. *)
Definition token (access refresh : string) (expires : Z) : TokenData :=
  mkTokenData (VStr access) (VStr refresh) (VInt expires).

(** The refresh attempts among the POSTs of a world. *)
Definition is_refresh_post (e : event) : bool :=
  match e with
  | Posted url data =>
      String.eqb url TOKEN_URL
      && match Dict.get "grant_type" data with
         | Some (VStr g) => String.eqb g "refresh_token"
         | _ => false
         end
  | Warned _ => false
  end.

Definition refresh_attempts (w : World) : nat :=
  List.length (filter is_refresh_post (trace w)).

End Auth.

(* ================================================================== *)
(** * Vocabulary of the specification for the context collector        *)
(* ================================================================== *)

Module TreeSpec.





End TreeSpec.

(** Sample inputs, used to run the model. *)
Module Samples.

(** A pattern matcher standing in for [pathspec]: a file is matched if
    a pattern names it or names its first directory. *)
Fixpoint first_component (s : string) : string :=
  match s with
  | EmptyString => ""
  | String c t => if Ascii.eqb c "/" then "" else String c (first_component t)
  end.

Definition literal_spec (patterns : list string) : PathSpec :=
  {| match_file := fun file =>
       str_in file patterns || str_in (first_component file) patterns;
     truthy := match patterns with [] => false | _ => true end |}.

Definition literal_pathspec : pathspec_lib :=
  fun _ patterns => Return (literal_spec patterns).

Definition text_file (nm content : string) (mtime : Z) : node :=
  File nm {| fd_size := Z.of_nat (String.length content);
             fd_mtime := mtime;
             fd_text := Return content;
             fd_text_utf8 := Return content |}.

Definition unreadable_file (nm : string) (sz mtime : Z) : node :=
  File nm {| fd_size := sz; fd_mtime := mtime;
             fd_text := Raise UnicodeDecodeError;
             fd_text_utf8 := Raise PermissionError |}.

Definition project : directory :=
  Some [ text_file "main.py" "print('main')" 30;
         text_file ".gitignore" ("*.log" ++ nl ++ "debug.log") 10;
         text_file "debug.log" "log content" 40;
         text_file "empty.py" "" 50;
         unreadable_file "notes.txt" 12 20;
         text_file "pyproject.toml" "[project]" 5;
         Dir "node_modules" (Some [ text_file "pkg.json" "{}" 60 ]);
         Dir "src" (Some [ text_file "util.py" ("a" ++ nl ++ "b") 35;
                           Dir "deep" (Some [ text_file "x.py" "x" 1 ]) ]) ].

(** The patterns the indexer and the collector load for [project]. *)
Definition project_index_patterns : list string :=
  [".git"; "node_modules"; "__pycache__"; ".venv"; "*.log"; "debug.log"].


(** A configuration with a cap of two files. *)
Definition two_files : ContextConfig :=
  mkContextConfig 2 [".git"; "node_modules"].

Definition empty_py : Path :=
  mkPath "empty.py" (text_file "empty.py" "" 50).


End Samples.

(** Vocabulary for the decoder: what may follow a number, and the
    document [save_tokens] writes for a record with typed fields. *)
Module JsonSpec.
Import Json.

Definition not_digit_head (s : string) : Prop :=
  match s with String c _ => digit_of c = None | EmptyString => True end.

Definition number_end (s : string) : Prop :=
  match s with
  | String c _ =>
      digit_of c = None
      /\ existsb (N.eqb (N_of_ascii c)) [46; 101; 69]%N = false
  | EmptyString => True
  end.

Definition token_doc (a r : string) (e : Z) : value :=
  VDict [("access_token", VStr a); ("refresh_token", VStr r); ("expires_at", VInt e)].

End JsonSpec.

(** Vocabulary for the base64 encoder. *)
Module Base64Spec.
Import Base64.
Local Open Scope N_scope.

(** The encoding without its padding. *)
Fixpoint encode_nopad (l : list Byte.byte) : list Byte.byte :=
  match l with
  | [] => []
  | [a] =>
      let x := Byte.to_N a in
      [digit (x / 4); digit ((x mod 4) * 16)]
  | [a; b] =>
      let x := Byte.to_N a in
      let y := Byte.to_N b in
      [digit (x / 4); digit ((x mod 4) * 16 + y / 16); digit ((y mod 16) * 4)]
  | a :: b :: c :: t =>
      let x := Byte.to_N a in
      let y := Byte.to_N b in
      let z := Byte.to_N c in
      digit (x / 4) :: digit ((x mod 4) * 16 + y / 16)
      :: digit ((y mod 16) * 4 + z / 64) :: digit (z mod 64)
      :: encode_nopad t
  end.

(** A character of the alphabet. *)
Definition is_digit64 (b : Byte.byte) : Prop := exists i, i < 64 /\ b = digit i.

End Base64Spec.

(** Vocabulary for the token lifecycle. *)
Module AuthSpec.
Import Json Auth.

(** The form [refresh_tokens] posts. *)
Definition refresh_form (rt : value) : list (string * value) :=
  [ ("grant_type", VStr "refresh_token");
    ("client_id", VStr CLIENT_ID);
    ("refresh_token", rt) ].

(** [d.get(k, default)] on the entries of a dictionary *)
Definition get_default (d : list (string * value)) (k : string)
    (default : value) : value :=
  match Dict.get k d with Some v => v | None => default end.

(** The [try] statement of [get_access_token]. *)
Definition refresh_branch (token_data : TokenData) : M value :=
  try_except
    (token_data' <- refresh_tokens (refresh_token token_data) ;;
     _ <- save_tokens token_data' ;;
     ret (access_token token_data'))
    (fun e =>
       match e with
       | HTTPStatusError _ =>
           _ <- logger_warning "Token refresh failed with HTTP error" ;;
           ret VNone
       | RequestError =>
           _ <- logger_warning "Token refresh failed with network error" ;;
           ret VNone
       | _ =>
           _ <- logger_warning "Token refresh failed with unexpected error" ;;
           ret VNone
       end).

End AuthSpec.

(** Sample worlds for the token lifecycle. *)
Module AuthSamples.
Import Json JsonSpec Auth.

(** A JSON string literal of a text that needs no escape. *)
Definition lit (s : string) : string :=
  String quote (s ++ String quote "").

(** A response that carries no refresh token. *)
Definition body_without_refresh : string :=
  "{" ++ lit "access_token" ++ ": " ++ lit "refreshed-access" ++ ", "
      ++ lit "expires_in" ++ ": 3600}".

(** A token file that lacks two of the three fields. *)
Definition text_missing_keys : string :=
  "{" ++ lit "access_token" ++ ": " ++ lit "test" ++ "}".

Definition stored (a r : string) (e : Z) : option auth_file :=
  Some (mkAuthFile (dumps (token_doc a r e)) 384).

(** The clock reads 1000, then 1001, ... *)
Definition world (file : option auth_file) (answer : post_outcome) : World :=
  {| AUTH_FILE := file;
     umask := 18;
     clock := fun n => 1000 + Z.of_nat n;
     ticks := 0;
     server := fun _ _ => answer;
     trace := [] |}.

(** A token that expires in more than an hour, and one that expires in
    a minute, with an endpoint that answers or a network that is down. *)
Definition fresh : World :=
  world (stored "valid-token" "refresh" 5000) ConnectError.

Definition expiring : World :=
  world (stored "expired-token" "refresh" 1060)
        (Response 200 body_without_refresh).

Definition expiring_offline : World :=
  world (stored "expired-token" "refresh" 1060) ConnectError.

(** The octets of the example of RFC 7636, appendix B. *)
Definition rfc7636_octets : list Byte.byte :=
  map Bytes.byte_of
    [ 116; 24; 223; 180; 151; 153; 224; 37; 79; 250; 96; 125; 216; 173;
      187; 186; 22; 212; 37; 77; 105; 214; 191; 240; 91; 88; 5; 88; 83;
      132; 141; 121 ]%N.

End AuthSamples.

(* ================================================================== *)
(** * More of the Python runtime                                       *)
(* ================================================================== *)

Module PyStr.

(** [s.startswith(p)] *)
Fixpoint startswith (s p : string) {struct p} : bool :=
  match p with
  | EmptyString => true
  | String a p' =>
      match s with
      | String b s' => Ascii.eqb a b && startswith s' p'
      | EmptyString => false
      end
  end.


(** [dict(items)] *)
Definition dict_of {V} (items : list (string * V)) : list (string * V) :=
  fold_left (fun d kv => Dict.set (fst kv) (snd kv) d) items [].

End PyStr.

(* ================================================================== *)
(** * flow/context/indexer.py: the lookups                             *)
(* ================================================================== *)

Module IndexerQueries.
Import PyStr Indexer.

Definition index : Type := list (string * FileInfo).


(** [FileIndexer.find_by_extension] *)
Definition find_by_extension (idx : index) (extension : string)
  : list FileInfo :=
  let ext := if startswith extension "." then extension
             else "." ++ extension in
  let ext := lower ext in
  filter (fun info => String.eqb (Indexer.extension info) ext)
         (Dict.values idx).

(** [FileIndexer.get_all_files] *)
Definition get_all_files (idx : index) : list FileInfo := Dict.values idx.

(** The key [get_summary] counts a file under:
    [info.extension or "(no extension)"]. *)
Definition summary_key (info : FileInfo) : string :=
  if falsy (Indexer.extension info) then "(no extension)"
  else Indexer.extension info.

(** The loop of [get_summary]. *)
Definition count_step (summary : list (string * Z)) (info : FileInfo)
  : list (string * Z) :=
  let ext := summary_key info in
  Dict.set ext
    (match Dict.get ext summary with Some n => n | None => 0 end + 1)
    summary.

(** The sort key of [get_summary]: [-x[1]]. *)
Definition by_count_desc (a b : string * Z) : bool := - snd a <=? - snd b.

(** [FileIndexer.get_summary] *)
Definition get_summary (idx : index) : list (string * Z) :=
  let summary := fold_left count_step (Dict.values idx) [] in
  dict_of (sort_by by_count_desc summary).

(** How many of the files are counted under a key. *)
Definition count_of (k : string) (files : list FileInfo) : Z :=
  Z.of_nat (List.length
              (filter (fun info => String.eqb (summary_key info) k) files)).

(** The sum of the counts of a summary. *)
Definition sum_counts (d : list (string * Z)) : Z :=
  fold_right Z.add 0 (map snd d).

(** A summary holds, for every key, the number of the files counted
    under it, and no entry for a key that counts none. *)
Definition counted (done : list FileInfo) (summary : list (string * Z))
  : Prop :=
  forall k, Dict.get k summary
            = if count_of k done =? 0 then None else Some (count_of k done).

End IndexerQueries.

(** The key [_build_tree] sorts a directory's entries by:
    [(p.is_file(), p.name.lower())]. *)
Module TreeKeys.


End TreeKeys.

(* ================================================================== *)
(** * [urllib.parse] and the rest of flow/auth.py                      *)
(* ================================================================== *)

(** [urllib.parse.quote_plus] and [urlencode], on strings with code
    points below 256: a character is encoded through its UTF-8 bytes. *)
Module Urllib.
Local Open Scope N_scope.

(** The characters [quote] never escapes: letters, digits and [_.-~]. *)
Definition always_safe (c : ascii) : bool :=
  let n := N_of_ascii c in
  ((65 <=? n) && (n <=? 90)) || ((97 <=? n) && (n <=? 122))
  || ((48 <=? n) && (n <=? 57))
  || existsb (N.eqb n) [95; 46; 45; 126].

Definition hex_upper (n : N) : ascii :=
  if n <? 10 then ascii_of_N (48 + n) else ascii_of_N (55 + n).

(** ["%{:02X}"] of a byte *)
Definition percent (b : N) : string :=
  String "%" (String (hex_upper (b / 16)) (String (hex_upper (b mod 16)) "")).

Definition quote_plus_char (c : ascii) : string :=
  let n := N_of_ascii c in
  if always_safe c then String c ""
  else if n =? 32 then "+"
  else if n <? 128 then percent n
  else percent (192 + n / 64) ++ percent (128 + n mod 64).

Fixpoint quote_plus (s : string) : string :=
  match s with
  | EmptyString => ""
  | String c t => quote_plus_char c ++ quote_plus t
  end.

(** [urlencode(params)] for a dictionary of strings *)
Definition urlencode (params : list (string * string)) : string :=
  join "&" (map (fun kv => quote_plus (fst kv) ++ "=" ++ quote_plus (snd kv))
                params).

End Urllib.

Module AuthLogin.
Import Json Bytes Auth Urllib.

Definition AUTHORIZATION_URL : string :=
  "https://console.anthropic.com/oauth/authorize".

Definition SCOPES : list string :=
  ["org:create_api_key"; "user:profile"; "user:inference"].

(** [get_authorization_url(state, code_challenge)] *)
Definition get_authorization_url (state code_challenge : string) : string :=
  let params :=
    [ ("response_type", "code");
      ("client_id", CLIENT_ID);
      ("redirect_uri", REDIRECT_URI);
      ("scope", join " " SCOPES);
      ("state", state);
      ("code_challenge", code_challenge);
      ("code_challenge_method", "S256") ] in
  AUTHORIZATION_URL ++ "?" ++ urlencode params.

(** [login()], given the 32 and the 16 random bytes it draws: the pair
    it returns, and the URL it hands to [webbrowser.open]. *)
Definition login (verifier_bytes state_bytes : list Byte.byte)
  : result ((string * string) * string) :=
  match generate_pkce verifier_bytes with
  | Raise e => Raise e
  | Return (code_verifier, code_challenge) =>
      match token_urlsafe state_bytes with
      | Raise e => Raise e
      | Return state =>
          let auth_url := get_authorization_url state code_challenge in
          Return ((code_verifier, state), auth_url)
      end
  end.

(** How often a character occurs in a string. *)
Fixpoint count_char (c : ascii) (s : string) : nat :=
  match s with
  | EmptyString => 0
  | String x t => (if Ascii.eqb c x then 1 else 0) + count_char c t
  end.

(** The characters of a string are in the URL-safe base64 alphabet. *)
Fixpoint urlsafe_text (s : string) : Prop :=
  match s with
  | EmptyString => True
  | String c t => Base64.value_of c <> None /\ urlsafe_text t
  end.

(** The URL up to the value of [state]. *)
Definition url_head : string :=
  "https://console.anthropic.com/oauth/authorize?response_type=code"
  ++ "&client_id=9d1c250a-e61b-44d9-88ed-5944d1962f5e"
  ++ "&redirect_uri=https%3A%2F%2Fconsole.anthropic.com%2Foauth%2Fcode%2Fcallback"
  ++ "&scope=org%3Acreate_api_key+user%3Aprofile+user%3Ainference"
  ++ "&state=".

(** The form [exchange_code] posts. *)
Definition exchange_form (code code_verifier : string)
  : list (string * value) :=
  [ ("grant_type", VStr "authorization_code");
    ("client_id", VStr CLIENT_ID);
    ("code", VStr code);
    ("redirect_uri", VStr REDIRECT_URI);
    ("code_verifier", VStr code_verifier) ].

(** The characters [quote_plus] can produce. *)
Definition url_char_ok (d : ascii) : bool :=
  always_safe d || Ascii.eqb d "+" || Ascii.eqb d "%".

Fixpoint all_chars (p : ascii -> bool) (s : string) : bool :=
  match s with
  | EmptyString => true
  | String c t => p c && all_chars p t
  end.


End AuthLogin.

(** More sample inputs. *)
Module MoreSamples.
Import Json JsonSpec Auth.

Definition logo_png : Path :=
  mkPath "assets/logo.png" (Samples.unreadable_file "logo.png" 2048 7).

Definition main_py : Path :=
  mkPath "main.py" (Samples.text_file "main.py" "print('main')" 30).


(** A Python file of exactly 100000 bytes. *)
Definition big_py : Path :=
  mkPath "big.py"
    (Samples.text_file "big.py" (N.iter 100000 (String "#") "") 1).

(** A configuration with a negative cap. *)
Definition all_but_one : ContextConfig :=
  mkContextConfig (-1) [".git"; "node_modules"].



(** The patterns the collector loads for [Samples.project] under the
    default configuration. *)
Definition project_default_find_patterns : list string :=
  ["*.log"; "debug.log"; ".git"; "node_modules"; "__pycache__"; ".venv"].

(** A token file whose expiry is a string. *)
Definition text_expiry : value :=
  VDict [ ("access_token", VStr "valid-token");
          ("refresh_token", VStr "refresh");
          ("expires_at", VStr "tomorrow") ].

Definition expiry_as_text : World :=
  AuthSamples.world (Some (mkAuthFile (dumps text_expiry) 384)) ConnectError.



(** Nobody is logged in; the endpoint answers, or the network is down. *)
Definition logged_out (answer : post_outcome) : World :=
  AuthSamples.world None answer.

End MoreSamples.

(* ================================================================== *)
(** * Part II: properties                                              *)
(* ================================================================== *)

(** ** The Python runtime model behaves as Python does on samples *)

Example suffix_of_samples :
  suffix_of "main.py" = ".py" /\ suffix_of "archive.tar.gz" = ".gz"
  /\ suffix_of ".gitignore" = "" /\ suffix_of "Makefile" = ""
  /\ suffix_of "trailing." = "" /\ suffix_of ".hidden.TXT" = ".TXT".
Proof. repeat split; reflexivity. Qed.

Example splitlines_samples :
  splitlines "" = [] /\
  splitlines ("a" ++ nl) = ["a"] /\
  splitlines ("a" ++ nl ++ nl ++ "b") = ["a"; ""; "b"] /\
  splitlines ("a" ++ String CR nl ++ "b" ++ String CR "") = ["a"; "b"] /\
  splitlines nl = [""].
Proof. repeat split; reflexivity. Qed.

Example slice_to_samples :
  slice_to 2 [1; 2; 3] = [1; 2] /\ slice_to 7 [1; 2; 3] = [1; 2; 3]
  /\ slice_to (-1) [1; 2; 3] = [1; 2] /\ slice_to (-5) [1; 2; 3] = [].
Proof. repeat split; reflexivity. Qed.

(** ** Stable insertion sort *)

Section SortFacts.
Context {A : Type} (le : A -> A -> bool).
Hypothesis le_total : forall a b, le a b = true \/ le b a = true.
Hypothesis le_trans :
  forall a b c, le a b = true -> le b c = true -> le a c = true.

Lemma insert_perm (x : A) (l : list A) :
  Permutation (insert le x l) (x :: l).
Proof.
  induction l as [|y t IH]; simpl.
  - apply Permutation_refl.
  - destruct (le x y).
    + apply Permutation_refl.
    + eapply perm_trans; [apply perm_skip, IH | apply perm_swap].
Qed.

Lemma sort_by_perm (l : list A) : Permutation (sort_by le l) l.
Proof.
  induction l as [|x t IH]; simpl.
  - constructor.
  - eapply perm_trans; [apply insert_perm | apply perm_skip, IH].
Qed.

Lemma insert_sorted (x : A) (l : list A) :
  StronglySorted (fun a b => le a b = true) l ->
  StronglySorted (fun a b => le a b = true) (insert le x l).
Proof.
  induction 1 as [|y t Hs IH Hall]; simpl.
  - repeat constructor.
  - destruct (le x y) eqn:Hxy.
    + constructor; [constructor; assumption|].
      constructor; [assumption|].
      eapply Forall_impl; [|exact Hall].
      intros z Hyz. eapply le_trans; eassumption.
    + constructor; [assumption|].
      eapply Permutation_Forall.
      * apply Permutation_sym, insert_perm.
      * constructor; [|assumption].
        destruct (le_total x y) as [H|H]; [congruence|exact H].
Qed.

Lemma sort_by_sorted (l : list A) :
  StronglySorted (fun a b => le a b = true) (sort_by le l).
Proof.
  induction l as [|x t IH]; simpl.
  - constructor.
  - apply insert_sorted, IH.
Qed.
End SortFacts.


Lemma In_firstn {A} (x : A) n (l : list A) : In x (firstn n l) -> In x l.
Proof.
  revert l. induction n as [|n IH]; intros [|y t]; simpl; try tauto.
  intros [H|H]; [left; exact H | right; apply IH, H].
Qed.


(** ** Insertion-ordered dictionaries *)

Section DictFacts.
Context {V : Type}.
Implicit Types (d : list (string * V)) (k : string) (v : V).

Lemma dict_get_set_same k v d : Dict.get k (Dict.set k v d) = Some v.
Proof.
  induction d as [|[k' v'] t IH]; simpl.
  - now rewrite String.eqb_refl.
  - destruct (String.eqb k k') eqn:E; simpl; rewrite ?String.eqb_refl, ?E; auto.
Qed.

Lemma dict_get_set_other k k' v d :
  k <> k' -> Dict.get k (Dict.set k' v d) = Dict.get k d.
Proof.
  intros Hne. induction d as [|[k2 v2] t IH]; simpl.
  - apply String.eqb_neq in Hne. now rewrite Hne.
  - destruct (String.eqb k' k2) eqn:E; simpl.
    + apply String.eqb_eq in E. subst k2.
      apply String.eqb_neq in Hne. now rewrite Hne.
    + now rewrite IH.
Qed.

Lemma dict_set_keeps k k' v d :
  Dict.get k d <> None -> Dict.get k (Dict.set k' v d) <> None.
Proof.
  intros H. destruct (String.eqb_spec k k') as [->|Hne].
  - now rewrite dict_get_set_same.
  - now rewrite dict_get_set_other.
Qed.

Lemma dict_set_In k v k' v' d :
  In (k, v) (Dict.set k' v' d) -> (k, v) = (k', v') \/ In (k, v) d.
Proof.
  induction d as [|[k2 v2] t IH]; simpl.
  - intros [H|[]]. left. now symmetry.
  - destruct (String.eqb k' k2); simpl.
    + intros [H|H]; [left; now symmetry | right; now right].
    + intros [H|H]; [right; now left|].
      destruct (IH H) as [E|E]; [now left | right; now right].
Qed.
End DictFacts.

(** ** flow/context/indexer.py *)

Section IndexerFacts.
Variable from_lines : pathspec_lib.
Variable spec : PathSpec.

Lemma index_step_keeps index p k :
  Dict.get k index <> None ->
  Dict.get k (Indexer.index_step spec index p) <> None.
Proof.
  intros H. unfold Indexer.index_step.
  destruct (negb (is_file p)); [exact H|].
  destruct (is_binary_file p); [exact H|].
  destruct (match_file spec (rel_path p)); [exact H|].
  now apply dict_set_keeps.
Qed.

Lemma fold_index_keeps l index k :
  Dict.get k index <> None ->
  Dict.get k (fold_left (Indexer.index_step spec) l index) <> None.
Proof.
  revert index. induction l as [|p t IH]; simpl; intros index H.
  - exact H.
  - apply IH, index_step_keeps, H.
Qed.

Lemma fold_index_has l index p :
  In p l -> Indexer.indexed spec p ->
  Dict.get (rel_path p) (fold_left (Indexer.index_step spec) l index) <> None.
Proof.
  revert index. induction l as [|q t IH]; simpl; intros index Hin Hp.
  - contradiction.
  - destruct Hin as [->|Hin]; [|now apply IH].
    apply fold_index_keeps.
    destruct Hp as (Hf & Hb & Hs).
    unfold Indexer.index_step. rewrite Hf, Hb, Hs. simpl.
    now rewrite dict_get_set_same.
Qed.

Lemma fold_index_entries l index k info :
  In (k, info) (fold_left (Indexer.index_step spec) l index) ->
  In (k, info) index \/
  exists p, In p l /\ Indexer.indexed spec p /\ k = rel_path p
            /\ info = Indexer._create_file_info p.
Proof.
  revert index. induction l as [|q t IH]; simpl; intros index H.
  - now left.
  - destruct (IH _ H) as [Hin | (p & Hp & Hs & Hk & Hi)].
    + unfold Indexer.index_step in Hin.
      destruct (is_file q) eqn:Hf; simpl in Hin; [|now left].
      destruct (is_binary_file q) eqn:Hb; [now left|].
      destruct (match_file spec (rel_path q)) eqn:Hm; [now left|].
      apply dict_set_In in Hin. destruct Hin as [E|Hin]; [|now left].
      injection E as -> ->. right. exists q.
      repeat split; auto.
    + right. exists p. repeat split; auto; apply Hs.
Qed.

Lemma create_file_info_lines p n :
  Indexer.lines (Indexer._create_file_info p) = Some n ->
  is_text_file p = true /\ st_size p < 100000 /\
  exists s, read_text p = Return s
            /\ n = Z.of_nat (List.length (splitlines s)).
Proof.
  unfold Indexer._create_file_info, Indexer.LINE_COUNT_CEILING. simpl.
  destruct (is_text_file p); simpl; [|discriminate].
  destruct (st_size p <? 100000) eqn:Hs; [|discriminate].
  apply Z.ltb_lt in Hs.
  destruct (read_text p) as [s|e]; [|discriminate].
  intros [= <-]. repeat split; auto. now exists s.
Qed.

Lemma create_file_info_read_failure p e :
  read_text p = Raise e ->
  Indexer.lines (Indexer._create_file_info p) = None.
Proof.
  intros H. unfold Indexer._create_file_info. simpl. rewrite H.
  now destruct (is_text_file p && (st_size p <? Indexer.LINE_COUNT_CEILING)).
Qed.

(** C9.  Once the ignore patterns are loaded and compiled,
    [build_index] returns an index, whatever reading the indexed files
    does: every regular, non-binary, non-ignored file of the walk has
    an entry, and every entry is the [FileInfo] of such a file.  An
    entry's line count is present only if the file is classified text
    and its size is strictly under 100,000 bytes (and then counts the
    lines of the text read); a failed read leaves it absent. *)
Theorem build_index_line_count_invariant cfg root patterns :
  Indexer.index_patterns cfg root = Return patterns ->
  from_lines "gitignore" patterns = Return spec ->
  exists index,
    Indexer.build_index from_lines cfg root = Return index
    /\ (forall p, In p (rglob root) -> Indexer.indexed spec p ->
          exists info, Dict.get (rel_path p) index = Some info)
    /\ (forall k info, In (k, info) index ->
          exists p, In p (rglob root) /\ Indexer.indexed spec p
            /\ k = rel_path p /\ info = Indexer._create_file_info p
            /\ Indexer.size info = st_size p
            /\ (forall n, Indexer.lines info = Some n ->
                  is_text_file p = true /\ Indexer.size info < 100000
                  /\ exists s, read_text p = Return s
                       /\ n = Z.of_nat (List.length (splitlines s)))
            /\ (forall e, read_text p = Raise e ->
                  Indexer.lines info = None)).
Proof.
  intros Hpat Hspec. unfold Indexer.build_index. rewrite Hpat, Hspec.
  eexists. split; [reflexivity|]. split.
  - intros p Hin Hp.
    pose proof (fold_index_has (rglob root) [] p Hin Hp) as H.
    destruct (Dict.get _ _) as [info|]; [now exists info | congruence].
  - intros k info Hin.
    apply fold_index_entries in Hin. destruct Hin as [[] | (p & Hp & Hs & Hk & Hi)].
    exists p. subst info. repeat split; auto; try apply Hs.
    + apply create_file_info_lines in H. apply H.
    + apply create_file_info_lines in H. apply H.
    + apply create_file_info_lines in H. apply H.
    + intros e. apply create_file_info_read_failure.
Qed.
End IndexerFacts.

(** ** flow/context/collector.py: collecting files *)

Lemma StronglySorted_impl {A} (R R' : A -> A -> Prop) l :
  (forall a b, R a b -> R' a b) -> StronglySorted R l -> StronglySorted R' l.
Proof.
  intros HR. induction 1 as [|x t Hs IH Hall]; constructor; auto.
  eapply Forall_impl; [|exact Hall]. intros; now apply HR.
Qed.


Lemma format_file_unreadable q e :
  read_text_utf8 q = Raise e -> Collector._format_file q = "".
Proof.
  intros H. unfold Collector._format_file, read_file_safe. rewrite H.
  now destruct (st_size q >? default_max_size).
Qed.

Lemma format_file_too_large q :
  st_size q > default_max_size -> Collector._format_file q = "".
Proof.
  intros H. unfold Collector._format_file, read_file_safe.
  apply Z.gt_lt, Z.gtb_lt in H. now rewrite H.
Qed.

Lemma blocks_app l1 l2 :
  Collector.blocks (l1 ++ l2) = (Collector.blocks l1 ++ Collector.blocks l2)%list.
Proof. unfold Collector.blocks. now rewrite map_app, filter_app. Qed.

Lemma blocks_In b files :
  In b (Collector.blocks files) ->
  exists f, In f files /\ b = Collector._format_file f /\ b <> "".
Proof.
  unfold Collector.blocks. intros H. apply filter_In in H.
  destruct H as [H Hb]. apply in_map_iff in H. destruct H as (f & <- & Hf).
  exists f. repeat split; auto.
  intros E. rewrite E in Hb. discriminate.
Qed.


(** C10.  A readable file whose content is the empty string is formatted
    as the empty string, exactly as an unreadable file and as a file over
    the size ceiling are; the directory collector therefore appends no
    block for it: the blocks of a file list are those of the list without
    the empty file. *)
Theorem format_file_empty_content_excluded (path : Path) :
  read_text_utf8 path = Return "" ->
  Collector._format_file path = ""
  /\ (forall q e, read_text_utf8 q = Raise e ->
        Collector._format_file q = Collector._format_file path)
  /\ (forall q, st_size q > default_max_size ->
        Collector._format_file q = Collector._format_file path)
  /\ (forall before after,
        Collector.blocks (before ++ path :: after)
        = Collector.blocks (before ++ after)).
Proof.
  intros Hread.
  assert (Hfmt : Collector._format_file path = "").
  { unfold Collector._format_file, read_file_safe. rewrite Hread.
    now destruct (st_size path >? default_max_size). }
  rewrite Hfmt. split; [reflexivity|]. split; [|split].
  - intros q e. apply format_file_unreadable.
  - intros q. apply format_file_too_large.
  - intros before after. rewrite !blocks_app. f_equal.
    unfold Collector.blocks. simpl. now rewrite Hfmt.
Qed.

Section CollectorFacts.
Variable from_lines : pathspec_lib.




End CollectorFacts.

(** ** flow/context/collector.py: the directory tree *)








(** *** Only the shown entries of a level influence the output *)





(** *** Entries below the depth bound do not influence the output *)









Lemma string_app_assoc (a b c : string) : (a ++ b) ++ c = a ++ b ++ c.
Proof. induction a as [|x a IH]; simpl; [reflexivity | now rewrite IH]. Qed.




(** ** The [json] codec on token documents *)

Section JsonFacts.
Import Json JsonSpec.

Lemma scan_string_escape_char c X :
  scan_string (escape_char c ++ X) = prepend c (scan_string X).
Proof.
  destruct c as [[] [] [] [] [] [] [] []]; reflexivity.
Qed.

Lemma scan_string_escape s rest :
  scan_string (escape s ++ String quote rest) = Some (s, rest).
Proof.
  induction s as [|c t IH]; simpl.
  - reflexivity.
  - rewrite string_app_assoc, scan_string_escape_char, IH. reflexivity.
Qed.

Lemma parse_value_string fuel s rest :
  parse_value (S fuel) (encode_string s ++ rest) = Some (VStr s, rest).
Proof.
  unfold encode_string. cbn [append].
  rewrite string_app_assoc. cbn [append].
  cbn [parse_value]. change (N_of_ascii quote =? 34)%N with true. cbn iota.
  now rewrite scan_string_escape.
Qed.

Lemma scan_digits_uint u rest :
  not_digit_head rest ->
  scan_digits (NilEmpty.string_of_uint u ++ rest) = (u, rest).
Proof.
  intros Hrest.
  induction u as [|u IHu|u IHu|u IHu|u IHu|u IHu|u IHu|u IHu|u IHu|u IHu|u IHu];
    cbn [NilEmpty.string_of_uint append scan_digits];
    try (rewrite IHu; reflexivity).
  destruct rest as [|c t]; [reflexivity|].
  cbn [scan_digits]. cbn in Hrest. now rewrite Hrest.
Qed.

Lemma pos_to_uint_norm p : Decimal.unorm (Pos.to_uint p) = Pos.to_uint p.
Proof.
  rewrite <- (DecimalPos.Unsigned.to_of (Pos.to_uint p)).
  now rewrite DecimalPos.Unsigned.of_to.
Qed.

Lemma pos_to_uint_head p :
  match Pos.to_uint p with
  | Decimal.Nil | Decimal.D0 _ => False
  | _ => True
  end.
Proof.
  pose proof (pos_to_uint_norm p) as Hn.
  pose proof (DecimalPos.Unsigned.to_uint_nonnil p) as Hnil.
  pose proof (DecimalPos.Unsigned.to_uint_nonzero p) as Hz.
  destruct (Pos.to_uint p) as [|u| | | | | | | | |]; try exact I.
  - congruence.
  - unfold Decimal.unorm in Hn. cbn [Decimal.nzhead] in Hn.
    destruct (Decimal.nzhead u) eqn:E.
    + injection Hn as <-. now apply Hz.
    + exfalso. eapply DecimalFacts.nzhead_nonzero. rewrite E. exact Hn.
    + congruence. + congruence. + congruence. + congruence.
    + congruence. + congruence. + congruence. + congruence. + congruence.
Qed.

Lemma number_end_not_digit s : number_end s -> not_digit_head s.
Proof. destruct s; simpl; tauto. Qed.

Lemma scan_nat_pos p rest :
  number_end rest ->
  scan_nat (NilEmpty.string_of_uint (Pos.to_uint p) ++ rest)
  = Some (Npos p, rest).
Proof.
  intros Hrest. apply number_end_not_digit in Hrest.
  pose proof (pos_to_uint_head p) as Hhead.
  pose proof (DecimalPos.Unsigned.of_to p) as Hof.
  pose proof (scan_digits_uint (Pos.to_uint p) rest Hrest) as Hscan.
  destruct (Pos.to_uint p) as [|u|u|u|u|u|u|u|u|u|u]; try contradiction;
    cbn [NilEmpty.string_of_uint append] in *;
    unfold scan_nat;
    match goal with
    | |- context [N.eqb (N_of_ascii ?c) 48] =>
        change (N.eqb (N_of_ascii c) 48) with false; cbv iota
    end;
    match goal with
    | |- context [digit_of ?c] =>
        let d := eval vm_compute in (digit_of c) in
        change (digit_of c) with d; cbv iota
    end;
    rewrite Hscan; unfold N.of_uint; now rewrite Hof.
Qed.

Lemma scan_number_int n rest :
  number_end rest -> scan_number (encode_int n ++ rest) = Some (n, rest).
Proof.
  intros Hrest. unfold encode_int.
  assert (Hend : forall z,
             match rest with
             | String c _ =>
                 if existsb (N.eqb (N_of_ascii c)) [46; 101; 69]%N
                 then None else Some (z, rest)
             | EmptyString => Some (z, rest)
             end = Some (z : Z, rest)).
  { intros z. destruct rest as [|c t]; [reflexivity|].
    destruct Hrest as [_ H]. now rewrite H. }
  destruct n as [|p|p].
  - cbn. apply Hend.
  - unfold Z.to_int, NilZero.string_of_int, NilZero.string_of_uint.
    pose proof (pos_to_uint_head p) as Hhead.
    pose proof (scan_nat_pos p rest Hrest) as Hnat.
    destruct (Pos.to_uint p) as [|u|u|u|u|u|u|u|u|u|u] eqn:E; try contradiction;
      unfold scan_number;
      cbn [NilEmpty.string_of_uint append] in *;
      match goal with
      | |- context [N.eqb (N_of_ascii ?c) 45] =>
          change (N.eqb (N_of_ascii c) 45) with false; cbv iota
      end;
      rewrite Hnat; apply Hend.
  - unfold Z.to_int, NilZero.string_of_int.
    pose proof (scan_nat_pos p rest Hrest) as Hnat.
    assert (Hstr : NilZero.string_of_uint (Pos.to_uint p)
                   = NilEmpty.string_of_uint (Pos.to_uint p)).
    { pose proof (pos_to_uint_head p) as Hhead.
      destruct (Pos.to_uint p); try contradiction; reflexivity. }
    rewrite Hstr. unfold scan_number. cbn [append].
    change (N.eqb (N_of_ascii "-") 45) with true. cbv iota.
    rewrite Hnat. apply Hend.
Qed.

Lemma encode_int_head n :
  exists c t, encode_int n = String c t
              /\ (digit_of c <> None \/ c = "-"%char).
Proof.
  unfold encode_int. destruct n as [|p|p].
  - exists "0"%char, "". split; [reflexivity | left; discriminate].
  - unfold Z.to_int, NilZero.string_of_int, NilZero.string_of_uint.
    pose proof (pos_to_uint_head p) as Hhead.
    destruct (Pos.to_uint p) as [|u|u|u|u|u|u|u|u|u|u]; try contradiction;
      cbn [NilEmpty.string_of_uint]; eexists _, _;
      (split; [reflexivity | left; discriminate]).
  - unfold Z.to_int, NilZero.string_of_int. eexists _, _.
    split; [reflexivity | now right].
Qed.

(** A text that starts with a digit or a minus sign is read as a
    number. *)
Lemma parse_value_number fuel c t z rest :
  digit_of c <> None \/ c = "-"%char ->
  scan_number (String c t) = Some (z, rest) ->
  parse_value (S fuel) (String c t) = Some (VInt z, rest).
Proof.
  intros Hc Hscan.
  assert (Hparse :
            parse_value (S fuel) (String c t)
            = match scan_number (String c t) with
              | Some (z0, rest0) => Some (VInt z0, rest0)
              | None => None
              end).
  { destruct c as [[] [] [] [] [] [] [] []];
      try reflexivity;
      (exfalso; destruct Hc as [Hc|Hc]; [now apply Hc | discriminate Hc]). }
  now rewrite Hparse, Hscan.
Qed.

Lemma dumps_token_doc a r e :
  dumps (token_doc a r e)
  = "{" ++ nl ++ "  " ++ encode_string "access_token" ++ ": "
        ++ encode_string a ++ "," ++ nl ++ "  "
        ++ encode_string "refresh_token" ++ ": " ++ encode_string r
        ++ "," ++ nl ++ "  " ++ encode_string "expires_at" ++ ": "
        ++ encode_int e ++ nl ++ "}".
Proof.
  unfold dumps, token_doc.
  cbn [dumps_at map join String.concat fst snd].
  change (newline_indent 1) with (nl ++ "  ").
  change (newline_indent 0) with nl.
  rewrite !string_app_assoc. reflexivity.
Qed.

Lemma skip_ws_encode_string s X : skip_ws (encode_string s ++ X) = encode_string s ++ X.
Proof. reflexivity. Qed.

Lemma skip_ws_encode_int n X : skip_ws (encode_int n ++ X) = encode_int n ++ X.
Proof.
  destruct (encode_int_head n) as (c & t & -> & Hc). cbn [append skip_ws].
  destruct Hc as [Hc | ->]; [|reflexivity].
  destruct c as [[] [] [] [] [] [] [] []]; try reflexivity; now destruct Hc.
Qed.

Lemma parse_members_next fuel k vt v more acc :
  (forall X, skip_ws (vt ++ X) = vt ++ X) ->
  (forall X, parse_value fuel (vt ++ String "," X) = Some (v, String "," X)) ->
  skip_ws more = more ->
  parse_members (S fuel)
    (encode_string k ++ ": " ++ vt ++ "," ++ nl ++ "  " ++ more) acc
  = parse_members fuel more (Dict.set k v acc).
Proof.
  intros Hws Hval Hmore.
  unfold encode_string. cbn [append]. rewrite string_app_assoc. cbn [append].
  cbn [parse_members].
  change (N_of_ascii quote =? 34)%N with true. cbv iota.
  rewrite scan_string_escape.
  change (skip_ws (String ":" ?s)) with (String ":" s).
  cbv iota. 
  change (N_of_ascii ":" =? 58)%N with true. cbv iota.
  change (skip_ws (String " " ?s)) with (skip_ws s).
  rewrite Hws, Hval.
  change (skip_ws (String "," ?s)) with (String "," s). cbv iota.
  change (N_of_ascii "," =? 44)%N with true. cbv iota.
  unfold nl. cbn [append].
  change (skip_ws (String LF (String " " (String " " more)))) with (skip_ws more).
  now rewrite Hmore.
Qed.

Lemma parse_members_last fuel k vt v acc :
  (forall X, skip_ws (vt ++ X) = vt ++ X) ->
  (forall X, parse_value fuel (vt ++ String LF X) = Some (v, String LF X)) ->
  parse_members (S fuel) (encode_string k ++ ": " ++ vt ++ nl ++ "}") acc
  = Some (Dict.set k v acc, "").
Proof.
  intros Hws Hval.
  unfold encode_string. cbn [append]. rewrite string_app_assoc. cbn [append].
  cbn [parse_members].
  change (N_of_ascii quote =? 34)%N with true. cbv iota.
  rewrite scan_string_escape.
  change (skip_ws (String ":" ?s)) with (String ":" s).
  cbv iota.
  change (N_of_ascii ":" =? 58)%N with true. cbv iota.
  change (skip_ws (String " " ?s)) with (skip_ws s).
  rewrite Hws. unfold nl. cbn [append].
  rewrite Hval.
  reflexivity.
Qed.

Lemma parse_value_object fuel k more :
  parse_value (S fuel) ("{" ++ nl ++ "  " ++ encode_string k ++ more)
  = match parse_members fuel (encode_string k ++ more) [] with
    | Some (d, rest) => Some (VDict d, rest)
    | None => None
    end.
Proof. reflexivity. Qed.

Lemma parse_value_encode_int fuel e X :
  parse_value (S fuel) (encode_int e ++ String LF X)
  = Some (VInt e, String LF X).
Proof.
  destruct (encode_int_head e) as (c & t & He & Hc).
  pose proof (scan_number_int e (String LF X)) as Hscan.
  rewrite He in *. cbn [append] in *.
  apply parse_value_number; [exact Hc|]. apply Hscan.
  split; reflexivity.
Qed.

Lemma parse_token_doc fuel a r e :
  parse_value (5 + fuel) (dumps (token_doc a r e)) = Some (token_doc a r e, "").
Proof.
  rewrite dumps_token_doc.
  change (5 + fuel)%nat with (S (S (S (S (S fuel))))).
  rewrite parse_value_object.
  rewrite (parse_members_next _ "access_token" (encode_string a) (VStr a));
    [| intros; apply skip_ws_encode_string
     | intros; apply parse_value_string
     | reflexivity ].
  rewrite (parse_members_next _ "refresh_token" (encode_string r) (VStr r));
    [| intros; apply skip_ws_encode_string
     | intros; apply parse_value_string
     | reflexivity ].
  rewrite (parse_members_last _ "expires_at" (encode_int e) (VInt e));
    [ reflexivity
    | intros; apply skip_ws_encode_int
    | intros; apply parse_value_encode_int ].
Qed.

Lemma string_length_app a b :
  String.length (a ++ b) = (String.length a + String.length b)%nat.
Proof. induction a; simpl; auto. Qed.

Lemma loads_dumps_token a r e :
  loads (dumps (token_doc a r e)) = Return (token_doc a r e).
Proof.
  unfold loads.
  assert (Hws : skip_ws (dumps (token_doc a r e)) = dumps (token_doc a r e)).
  { rewrite dumps_token_doc. reflexivity. }
  rewrite Hws.
  assert (Hfuel : exists k,
             (2 * String.length (dumps (token_doc a r e)) + 2 = 5 + k)%nat).
  { assert (Hlen : (2 <= String.length (dumps (token_doc a r e)))%nat).
    { rewrite dumps_token_doc, string_length_app, string_length_app.
      cbn [String.length nl]. lia. }
    exists (2 * String.length (dumps (token_doc a r e)) + 2 - 5)%nat. lia. }
  destruct Hfuel as [k ->].
  now rewrite parse_token_doc.
Qed.

End JsonFacts.

(** ** flow/auth.py: the token store and the refresh policy *)

Section AuthFacts.
Import Json JsonSpec Auth AuthSpec.

Lemma save_tokens_spec t w :
  save_tokens t w
  = (Return tt,
     set_file (Some (mkAuthFile
                       (dumps (VDict [("access_token", access_token t);
                                      ("refresh_token", refresh_token t);
                                      ("expires_at", expires_at t)]))
                       384)) w).
Proof. reflexivity. Qed.

Lemma load_tokens_world w : snd (load_tokens w) = w.
Proof.
  unfold load_tokens, bind, try_except, file_exists, file_read, lift, ret, raise.
  destruct (AUTH_FILE w) as [f|] eqn:E; cbn; [rewrite E | reflexivity].
  destruct (loads (content f)) as [data|e]; cbn.
  2: { destruct e; reflexivity. }
  destruct (getitem data "access_token") as [x|e]; cbn; [|destruct e; reflexivity].
  destruct (getitem data "refresh_token") as [y|e]; cbn; [|destruct e; reflexivity].
  destruct (getitem data "expires_at") as [z|e]; cbn; [|destruct e; reflexivity].
  reflexivity.
Qed.

Lemma load_tokens_token_doc a r e m w :
  load_tokens (set_file (Some (mkAuthFile (dumps (token_doc a r e)) m)) w)
  = (Return (Some (token a r e)),
     set_file (Some (mkAuthFile (dumps (token_doc a r e)) m)) w).
Proof.
  unfold load_tokens, bind, try_except, file_exists, file_read, lift, ret.
  cbn [AUTH_FILE set_file negb content].
  rewrite loads_dumps_token. reflexivity.
Qed.

Lemma load_tokens_absent w :
  AUTH_FILE w = None -> load_tokens w = (Return None, w).
Proof.
  intros H. unfold load_tokens, bind, file_exists. now rewrite H.
Qed.

Ltac run_monad :=
  unfold refresh_tokens, save_tokens, bind, try_except, client_post,
    raise_for_status, time_time, lift, ret, raise, file_write, file_chmod,
    logger_warning.

Ltac split_cases :=
  repeat (cbn -[loads dumps Z.leb Z.geb];
          match goal with
          | |- context [match ?x with _ => _ end] =>
              lazymatch x with
              | context [match _ with _ => _ end] => fail
              | _ => destruct x eqn:?
              end
          end);
  cbn -[loads dumps Z.leb Z.geb].

(** Whatever it returns, [refresh_tokens] makes one POST, to the token
    endpoint, and leaves the token file alone. *)
Lemma refresh_tokens_effect rt w :
  trace (snd (refresh_tokens rt w))
  = Posted TOKEN_URL (refresh_form rt) :: trace w
  /\ AUTH_FILE (snd (refresh_tokens rt w)) = AUTH_FILE w
  /\ umask (snd (refresh_tokens rt w)) = umask w.
Proof.
  run_monad. split_cases; repeat split; reflexivity.
Qed.

Lemma load_tokens_eq w tok :
  fst (load_tokens w) = Return (Some tok) ->
  load_tokens w = (Return (Some tok), w).
Proof.
  intros H. rewrite (surjective_pairing (load_tokens w)).
  now rewrite H, load_tokens_world.
Qed.

Lemma get_access_token_loaded w tok e :
  fst (load_tokens w) = Return (Some tok) ->
  expires_at tok = VInt e ->
  get_access_token w
  = if now w >=? e - 300 then refresh_branch tok (tick w)
    else (Return (access_token tok), tick w).
Proof.
  intros Hload He. apply load_tokens_eq in Hload.
  unfold get_access_token, bind at 1. rewrite Hload.
  unfold bind at 1, time_time. unfold bind at 1, lift. rewrite He.
  cbn [as_number]. destruct (now w >=? e - 300); reflexivity.
Qed.

Lemma refresh_branch_success tok w tok' w' :
  refresh_tokens (refresh_token tok) w = (Return tok', w') ->
  refresh_branch tok w
  = (Return (access_token tok'), snd (save_tokens tok' w')).
Proof.
  intros H. unfold refresh_branch, try_except, bind at 1. rewrite H.
  rewrite save_tokens_spec. reflexivity.
Qed.

Lemma refresh_branch_failure tok w ex w' :
  refresh_tokens (refresh_token tok) w = (Raise ex, w') ->
  exists msg,
    refresh_branch tok w = (Return VNone, log_event (Warned msg) w').
Proof.
  intros H. unfold refresh_branch, try_except, bind at 1. rewrite H.
  destruct ex; eexists; reflexivity.
Qed.

Lemma refresh_branch_trace tok w :
  exists warnings,
    trace (snd (refresh_branch tok w))
    = (warnings ++ Posted TOKEN_URL (refresh_form (refresh_token tok)) :: trace w)%list
    /\ Forall (fun ev => is_post ev = false) warnings.
Proof.
  destruct (refresh_tokens_effect (refresh_token tok) w) as (Htrace & _ & _).
  destruct (refresh_tokens (refresh_token tok) w) as [[tok'|ex] w'] eqn:E;
    cbn [snd] in Htrace.
  - rewrite (refresh_branch_success _ _ _ _ E), save_tokens_spec.
    exists []. split; [exact Htrace | constructor].
  - destruct (refresh_branch_failure _ _ _ _ E) as [msg ->].
    exists [Warned msg]. cbn. rewrite Htrace. split; [reflexivity|].
    repeat constructor.
Qed.

Lemma filter_none {A} (f : A -> bool) l :
  Forall (fun x => f x = false) l -> filter f l = [].
Proof.
  induction 1 as [|x t Hx _ IH]; simpl; [reflexivity|]. now rewrite Hx.
Qed.

Lemma refresh_post_is_post ev : is_post ev = false -> is_refresh_post ev = false.
Proof. destruct ev; [discriminate | reflexivity]. Qed.



(** C3.  When the refresh of an expiring token raises, whatever the
    exception, [get_access_token] returns [None], as it does when there
    is no token file; it logs a warning and leaves the token file as it
    was. *)
Theorem refresh_failure_returns_none w tok e ex :
  fst (load_tokens w) = Return (Some tok) ->
  expires_at tok = VInt e ->
  e <= now w + 300 ->
  fst (refresh_tokens (refresh_token tok) (tick w)) = Raise ex ->
  fst (get_access_token w) = Return VNone
  /\ fst (get_access_token (set_file None w)) = Return VNone
  /\ (exists msg, In (Warned msg) (trace (snd (get_access_token w))))
  /\ AUTH_FILE (snd (get_access_token w)) = AUTH_FILE w.
Proof.
  intros Hload He Hcmp Hfail.
  rewrite (get_access_token_loaded w tok e Hload He).
  assert (Hge : (now w >=? e - 300) = true) by (rewrite Z.geb_leb; apply Z.leb_le; lia).
  rewrite Hge.
  destruct (refresh_tokens_effect (refresh_token tok) (tick w)) as (_ & Hfile & _).
  destruct (refresh_tokens (refresh_token tok) (tick w)) as [r w'] eqn:E.
  cbn [fst snd] in *. subst r.
  destruct (refresh_branch_failure _ _ _ _ E) as [msg ->].
  cbn [fst snd]. split; [reflexivity|]. split; [|split].
  - unfold get_access_token, bind at 1. now rewrite load_tokens_absent.
  - exists msg. now left.
  - exact Hfile.
Qed.

Lemma refresh_tokens_success rt w status body d a secs :
  server w (List.length (posts w)) (refresh_form rt) = Response status body ->
  200 <= status <= 299 ->
  loads body = Return (VDict d) ->
  Dict.get "access_token" d = Some a ->
  as_number (get_default d "expires_in" (VInt 3600)) = Return secs ->
  refresh_tokens rt w
  = (Return (mkTokenData a (get_default d "refresh_token" rt)
                         (VInt (now (log_event (Posted TOKEN_URL (refresh_form rt)) w) + secs))),
     tick (log_event (Posted TOKEN_URL (refresh_form rt)) w)).
Proof.
  intros Hserver Hstatus Hbody Haccess Hsecs.
  unfold refresh_tokens, bind at 1, client_post.
  fold (refresh_form rt). rewrite Hserver.
  unfold bind at 1, raise_for_status. cbn [fst snd].
  assert (Hok : (200 <=? status) && (status <=? 299) = true).
  { apply andb_true_intro. split; apply Z.leb_le; lia. }
  rewrite Hok. unfold ret at 1.
  unfold bind at 1, lift at 1. rewrite Hbody.
  unfold bind at 1, lift at 1. cbn [get].
  unfold get_default in *.
  destruct (Dict.get "expires_in" d) as [x|];
    unfold bind at 1, time_time, bind at 1, lift at 1; rewrite Hsecs;
    unfold bind at 1, lift at 1; cbn [getitem]; rewrite Haccess;
    unfold bind at 1, lift at 1;
    destruct (Dict.get "refresh_token" d); reflexivity.
Qed.

(** C4.  When the token endpoint answers a refresh with a success status
    and a JSON object that has an access token (and a numeric or absent
    [expires_in]), [refresh_tokens] returns a record whose refresh token
    is the one of the response if it has one, and the one supplied
    otherwise.  In the latter case, once [get_access_token] has refreshed
    an expiring token and saved the result, the stored refresh token is
    still the one stored before. *)
Theorem refresh_keeps_or_replaces_refresh_token rt w status body d a secs :
  server w (List.length (posts w)) (refresh_form rt) = Response status body ->
  200 <= status <= 299 ->
  loads body = Return (VDict d) ->
  Dict.get "access_token" d = Some a ->
  as_number (get_default d "expires_in" (VInt 3600)) = Return secs ->
  (exists tok',
      fst (refresh_tokens rt w) = Return tok'
      /\ access_token tok' = a
      /\ (Dict.get "refresh_token" d = None -> refresh_token tok' = rt)
      /\ (forall v, Dict.get "refresh_token" d = Some v ->
            refresh_token tok' = v))
  /\ (forall w0 tok0 e0 r0 a1,
        w = tick w0 ->
        fst (load_tokens w0) = Return (Some tok0) ->
        expires_at tok0 = VInt e0 -> e0 <= now w0 + 300 ->
        refresh_token tok0 = rt -> rt = VStr r0 -> a = VStr a1 ->
        Dict.get "refresh_token" d = None ->
        fst (get_access_token w0) = Return (VStr a1)
        /\ fst (load_tokens (snd (get_access_token w0)))
           = Return (Some (token a1 r0 (clock w0 (S (ticks w0)) + secs)))).
Proof.
  intros Hserver Hstatus Hbody Haccess Hsecs.
  pose proof (refresh_tokens_success rt w status body d a secs
                Hserver Hstatus Hbody Haccess Hsecs) as Hrefresh.
  split.
  - eexists. rewrite Hrefresh. cbn [fst access_token refresh_token].
    unfold get_default.
    split; [reflexivity|]. split; [reflexivity|]. split.
    + now intros ->.
    + now intros v ->.
  - intros w0 tok0 e0 r0 a1 -> Hload He0 Hcmp Hrt -> -> Hnone.
    rewrite (get_access_token_loaded w0 tok0 e0 Hload He0).
    assert (Hge : (now w0 >=? e0 - 300) = true)
      by (rewrite Z.geb_leb; apply Z.leb_le; lia).
    rewrite Hge. rewrite <- Hrt in Hrefresh.
    rewrite (refresh_branch_success _ _ _ _ Hrefresh).
    rewrite save_tokens_spec. cbn [fst snd access_token refresh_token expires_at].
    split; [reflexivity|].
    unfold get_default. rewrite Hnone, Hrt.
    change (VDict [("access_token", VStr a1); ("refresh_token", VStr r0); ("expires_at", VInt ?e)])
      with (token_doc a1 r0 e).
    now rewrite load_tokens_token_doc.
Qed.


(** C6 fails on the code.  A token file that holds the JSON array [[]],
    valid JSON of the wrong structure, makes [load_tokens] raise
    [TypeError]: subscripting the list is neither a [JSONDecodeError]
    nor a [KeyError].  With no token file it returns [None]. *)
Theorem load_tokens_json_array_raises w m :
  fst (load_tokens (set_file (Some (mkAuthFile "[]" m)) w)) = Raise TypeError
  /\ fst (load_tokens (set_file None w)) = Return None.
Proof. split; reflexivity. Qed.

Lemma load_tokens_invalid_json w m :
  fst (load_tokens (set_file (Some (mkAuthFile "invalid json" m)) w))
  = Return None.
Proof. reflexivity. Qed.

Lemma load_tokens_missing_keys w m :
  fst (load_tokens
         (set_file (Some (mkAuthFile AuthSamples.text_missing_keys m)) w))
  = Return None.
Proof. reflexivity. Qed.

End AuthFacts.

(** ** flow/auth.py: PKCE *)

Section PkceFacts.
Import Bytes Base64 Base64Spec Auth.
Local Open Scope N_scope.

Ltac arith := zify; Z.to_euclidean_division_equations; lia.

Lemma byte_of_to_N b : byte_of (Byte.to_N b) = b.
Proof.
  unfold byte_of. pose proof (Byte.to_N_bounded b).
  rewrite N.mod_small by lia. now rewrite Byte.of_to_N.
Qed.

Lemma byte_of_small n b : (n = Byte.to_N b)%N -> byte_of n = b.
Proof. intros ->. apply byte_of_to_N. Qed.

Lemma index_in_digit i :
  (i < 64)%N -> index_in (digit i) alphabet = Some i.
Proof.
  intros Hi.
  assert (Hall : forallb (fun k => match index_in (digit (N.of_nat k)) alphabet with
                                   | Some j => N.eqb j (N.of_nat k)
                                   | None => false
                                   end) (seq 0 64) = true) by (vm_compute; reflexivity).
  rewrite forallb_forall in Hall.
  specialize (Hall (N.to_nat i)). rewrite N2Nat.id in Hall.
  assert (Hin : In (N.to_nat i) (seq 0 64)) by (apply in_seq; lia).
  specialize (Hall Hin).
  destruct (index_in (digit i) alphabet) as [j|]; [|discriminate].
  apply N.eqb_eq in Hall. now subst.
Qed.

Lemma value_of_digit i :
  (i < 64)%N -> value_of (ascii_of_byte (digit i)) = Some i.
Proof.
  intros Hi. unfold value_of. rewrite byte_of_ascii_of_byte.
  now apply index_in_digit.
Qed.

Lemma digit_ascii i : (Byte.to_N (digit i) <? 128)%N = true.
Proof.
  unfold digit.
  assert (Hall : Forall (fun b => (Byte.to_N b <? 128)%N = true) (pad :: alphabet))
    by (repeat constructor).
  rewrite Forall_forall in Hall. apply Hall.
  destruct (nth_in_or_default (N.to_nat i) alphabet pad) as [H|H].
  - now right.
  - left. now rewrite H.
Qed.

Lemma digit_not_pad i : (i < 64)%N -> digit i <> pad.
Proof.
  intros Hi E. pose proof (index_in_digit i Hi) as H. rewrite E in H.
  vm_compute in H. discriminate.
Qed.

Lemma list_ind3 {A} (P : list A -> Prop) :
  P [] -> (forall a, P [a]) -> (forall a b, P [a; b]) ->
  (forall a b c t, P t -> P (a :: b :: c :: t)) ->
  forall l, P l.
Proof.
  intros H0 H1 H2 H3.
  assert (H : forall l, P l /\ (forall a, P (a :: l)) /\ (forall a b, P (a :: b :: l))).
  { induction l as [|x t (IH0 & IH1 & IH2)]; repeat split; auto. }
  intros l. apply H.
Qed.

Lemma encode_nopad_digits l : Forall is_digit64 (encode_nopad l).
Proof.
  induction l as [|a|a b|a b c t IH] using list_ind3; cbn [encode_nopad].
  - constructor.
  - pose proof (Byte.to_N_bounded a).
    repeat (apply Forall_cons; [eexists; (split; [|reflexivity]); arith|]).
    constructor.
  - pose proof (Byte.to_N_bounded a). pose proof (Byte.to_N_bounded b).
    repeat (apply Forall_cons; [eexists; (split; [|reflexivity]); arith|]).
    constructor.
  - pose proof (Byte.to_N_bounded a). pose proof (Byte.to_N_bounded b).
    pose proof (Byte.to_N_bounded c).
    do 4 (apply Forall_cons; [eexists; (split; [|reflexivity]); arith|]).
    exact IH.
Qed.

Lemma encode_padding l :
  exists k, urlsafe_b64encode l = (encode_nopad l ++ repeat pad k)%list.
Proof.
  induction l as [|a|a b|a b c t [k IH]] using list_ind3.
  - now exists 0%nat.
  - now exists 2%nat.
  - now exists 1%nat.
  - exists k. cbn [urlsafe_b64encode encode_nopad]. now rewrite IH.
Qed.

Lemma drop_while_repeat (p : Byte.byte -> bool) x k l :
  p x = true -> drop_while p (repeat x k ++ l)%list = drop_while p l.
Proof. intros Hp. induction k; simpl; [reflexivity | now rewrite Hp]. Qed.

Lemma rstrip_padding body k :
  Forall is_digit64 body ->
  rstrip pad (body ++ repeat pad k)%list = body.
Proof.
  intros Hbody. unfold rstrip.
  rewrite rev_app_distr, rev_repeat.
  rewrite drop_while_repeat by reflexivity.
  assert (Hrev : Forall is_digit64 (rev body)).
  { apply Forall_forall. intros x Hx. rewrite Forall_forall in Hbody.
    apply Hbody. now apply in_rev. }
  destruct (rev body) as [|x t] eqn:E.
  - simpl. apply (f_equal (@rev _)) in E. now rewrite rev_involutive in E.
  - cbn [drop_while].
    assert (Hx : Byte.eqb pad x = false).
    { inversion Hrev as [|? ? (i & Hi & ->) _]; subst.
      destruct (Byte.eqb pad (digit i)) eqn:Eq; [|reflexivity].
      apply Byte.byte_dec_bl in Eq. symmetry in Eq.
      now apply digit_not_pad in Eq. }
    rewrite Hx, <- E. apply rev_involutive.
Qed.

Lemma rstrip_encode l : rstrip pad (urlsafe_b64encode l) = encode_nopad l.
Proof.
  destruct (encode_padding l) as [k ->].
  apply rstrip_padding, encode_nopad_digits.
Qed.

Lemma decode_ascii_digits l :
  Forall is_digit64 l -> decode_ascii l = Return (string_of_list_byte l).
Proof.
  induction 1 as [|b t (i & _ & ->) _ IH]; cbn [decode_ascii]; [reflexivity|].
  now rewrite digit_ascii, IH.
Qed.

Lemma encode_ascii_digits l :
  Forall is_digit64 l -> encode_ascii (string_of_list_byte l) = Return l.
Proof.
  induction 1 as [|b t (i & _ & ->) _ IH]; [reflexivity|].
  change (string_of_list_byte (digit i :: t))
    with (String (ascii_of_byte (digit i)) (string_of_list_byte t)).
  cbn [encode_ascii]. rewrite IH, byte_of_ascii_of_byte.
  rewrite ascii_of_byte_via_N.
  pose proof (Byte.to_N_bounded (digit i)).
  rewrite N_ascii_embedding by lia.
  now rewrite digit_ascii.
Qed.

Lemma decode_encode_nopad l :
  urlsafe_b64decode_nopad (string_of_list_byte (encode_nopad l)) = Some l.
Proof.
  induction l as [|a|a b|a b c t IH] using list_ind3.
  - reflexivity.
  - pose proof (Byte.to_N_bounded a).
    cbn [encode_nopad].
    change (string_of_list_byte [?d0; ?d1])
      with (String (ascii_of_byte d0) (String (ascii_of_byte d1) "")).
    cbn [urlsafe_b64decode_nopad].
    rewrite !value_of_digit by arith.
    f_equal. f_equal. apply byte_of_small. arith.
  - pose proof (Byte.to_N_bounded a). pose proof (Byte.to_N_bounded b).
    cbn [encode_nopad].
    change (string_of_list_byte [?d0; ?d1; ?d2])
      with (String (ascii_of_byte d0) (String (ascii_of_byte d1)
              (String (ascii_of_byte d2) ""))).
    cbn [urlsafe_b64decode_nopad].
    rewrite !value_of_digit by arith.
    f_equal. f_equal; [|f_equal]; apply byte_of_small; arith.
  - pose proof (Byte.to_N_bounded a). pose proof (Byte.to_N_bounded b).
    pose proof (Byte.to_N_bounded c).
    cbn [encode_nopad].
    change (string_of_list_byte (?d0 :: ?d1 :: ?d2 :: ?d3 :: ?r))
      with (String (ascii_of_byte d0) (String (ascii_of_byte d1)
              (String (ascii_of_byte d2) (String (ascii_of_byte d3)
                 (string_of_list_byte r))))).
    cbn [urlsafe_b64decode_nopad].
    rewrite !value_of_digit by arith. rewrite IH.
    f_equal. f_equal; [|f_equal; [|f_equal]]; apply byte_of_small; arith.
Qed.

(** C1.  Whatever random bytes it draws, [generate_pkce] returns a pair
    (verifier, challenge); the verifier is ASCII, the challenge is the
    URL-safe base64 encoding, padding stripped, of the SHA-256 digest of
    the verifier's bytes, and decoding the challenge gives that digest
    back. *)
Theorem generate_pkce_challenge tok :
  exists code_verifier code_challenge verifier_bytes,
    generate_pkce tok = Return (code_verifier, code_challenge)
    /\ encode_ascii code_verifier = Return verifier_bytes
    /\ decode_ascii (rstrip pad (urlsafe_b64encode (Sha256.sha256 verifier_bytes)))
       = Return code_challenge
    /\ urlsafe_b64decode_nopad code_challenge = Some (Sha256.sha256 verifier_bytes).
Proof.
  unfold generate_pkce, token_urlsafe.
  rewrite rstrip_encode, decode_ascii_digits by apply encode_nopad_digits.
  rewrite encode_ascii_digits by apply encode_nopad_digits.
  rewrite rstrip_encode, decode_ascii_digits by apply encode_nopad_digits.
  eexists _, _, _. split; [reflexivity|]. split; [|split].
  - apply encode_ascii_digits, encode_nopad_digits.
  - rewrite rstrip_encode. apply decode_ascii_digits, encode_nopad_digits.
  - apply decode_encode_nopad.
Qed.

End PkceFacts.

(** ** Known answers and runs of the model *)

Example sha256_abc :
  map Byte.to_N (Sha256.sha256 (list_byte_of_string "abc"))
  = [ 186; 120; 22; 191; 143; 1; 207; 234; 65; 65; 64; 222; 93; 174; 34; 35;
      176; 3; 97; 163; 150; 23; 122; 156; 180; 16; 255; 97; 242; 0; 21; 173 ]%N.
Proof. vm_compute. reflexivity. Qed.

Example sha256_constants :
  nth 0 Sha256.K 0%N = 1116352408%N /\ nth 63 Sha256.K 0%N = 3329325298%N
  /\ nth 0 Sha256.H0 0%N = 1779033703%N /\ nth 7 Sha256.H0 0%N = 1541459225%N.
Proof. repeat split; reflexivity. Qed.

(** The verifier and the challenge of RFC 7636, appendix B. *)
Example generate_pkce_rfc7636 :
  Auth.generate_pkce AuthSamples.rfc7636_octets
  = Return ("dBjftJeZ4CVP-mB92K27uhbUJU1p1r_wW1gFWFOEjXk",
            "E9Melhoa2OwvFrEMTJguCHaoeK1t8URWbuGJSstw-cM").
Proof. vm_compute. reflexivity. Qed.

Example loads_samples :
  Json.loads "[]" = Return (Json.VList [])
  /\ Json.loads "invalid json" = Raise JSONDecodeError
  /\ Json.loads "01" = Raise JSONDecodeError
  /\ Json.loads AuthSamples.text_missing_keys
     = Return (Json.VDict [("access_token", Json.VStr "test")])
  /\ Json.loads AuthSamples.body_without_refresh
     = Return (Json.VDict [("access_token", Json.VStr "refreshed-access");
                           ("expires_in", Json.VInt 3600)]).
Proof. repeat split; vm_compute; reflexivity. Qed.

(** A token that expires in a minute is refreshed once; the new access
    token is returned and stored with the old refresh token. *)
Example get_access_token_refreshes_expiring :
  let run := Auth.get_access_token AuthSamples.expiring in
  fst run = Return (Json.VStr "refreshed-access")
  /\ Auth.refresh_attempts (snd run) = 1%nat
  /\ fst (Auth.load_tokens (snd run))
     = Return (Some (Auth.token "refreshed-access" "refresh" 4601)).
Proof. vm_compute. repeat split; reflexivity. Qed.

Example collect_directory_sample :
  Collector._collect_directory Samples.literal_pathspec
    default_context_config Samples.project
  = Return ("# util.py" ++ nl ++ "```python" ++ nl ++ "a" ++ nl ++ "b" ++ nl
            ++ "```" ++ nl ++ nl
            ++ "# main.py" ++ nl ++ "```python" ++ nl ++ "print('main')" ++ nl
            ++ "```" ++ nl ++ nl
            ++ "# .gitignore" ++ nl ++ "```text" ++ nl ++ "*.log" ++ nl
            ++ "debug.log" ++ nl ++ "```" ++ nl ++ nl
            ++ "# pyproject.toml" ++ nl ++ "```toml" ++ nl ++ "[project]" ++ nl
            ++ "```" ++ nl ++ nl
            ++ "# x.py" ++ nl ++ "```python" ++ nl ++ "x" ++ nl ++ "```").
Proof. vm_compute. reflexivity. Qed.

(** The ways a refresh fails: no connection, an error status, a body
    that is not JSON, a body that is not an object, an object without an
    access token. *)
Example refresh_tokens_failures :
  let refresh answer :=
    fst (Auth.refresh_tokens (Json.VStr "refresh")
           (AuthSamples.world None answer)) in
  refresh Auth.ConnectError = Raise RequestError
  /\ refresh (Auth.Response 401 "Unauthorized") = Raise (HTTPStatusError 401)
  /\ refresh (Auth.Response 200 "<html>") = Raise JSONDecodeError
  /\ refresh (Auth.Response 200 "[]") = Raise AttributeError
  /\ refresh (Auth.Response 200 "{}") = Raise (KeyError "access_token").
Proof. repeat split; vm_compute; reflexivity. Qed.

(** ** The theorems at sample inputs *)

Example sample_worlds_load :
  fst (Auth.load_tokens AuthSamples.fresh)
  = Return (Some (Auth.token "valid-token" "refresh" 5000))
  /\ fst (Auth.load_tokens AuthSamples.expiring)
     = Return (Some (Auth.token "expired-token" "refresh" 1060))
  /\ fst (Auth.load_tokens AuthSamples.expiring_offline)
     = Return (Some (Auth.token "expired-token" "refresh" 1060)).
Proof. repeat split; vm_compute; reflexivity. Qed.


Lemma refresh_failure_returns_none_witness :
  fst (Auth.get_access_token AuthSamples.expiring_offline) = Return Json.VNone.
Proof.
  destruct (refresh_failure_returns_none AuthSamples.expiring_offline
              (Auth.token "expired-token" "refresh" 1060) 1060 RequestError)
    as [H _].
  - vm_compute. reflexivity.
  - reflexivity.
  - vm_compute. discriminate.
  - vm_compute. reflexivity.
  - exact H.
Defined.

Lemma refresh_keeps_or_replaces_refresh_token_witness :
  exists tok',
    fst (Auth.refresh_tokens (Json.VStr "refresh") AuthSamples.expiring)
    = Return tok'
    /\ Auth.refresh_token tok' = Json.VStr "refresh".
Proof.
  destruct (refresh_keeps_or_replaces_refresh_token
              (Json.VStr "refresh") AuthSamples.expiring 200
              AuthSamples.body_without_refresh
              [("access_token", Json.VStr "refreshed-access");
               ("expires_in", Json.VInt 3600)]
              (Json.VStr "refreshed-access") 3600)
    as [(tok' & Hret & _ & Hkeep & _) _].
  - reflexivity.
  - split; vm_compute; discriminate.
  - vm_compute. reflexivity.
  - reflexivity.
  - reflexivity.
  - exists tok'. split; [exact Hret|]. apply Hkeep. reflexivity.
Defined.

Lemma build_index_line_count_invariant_witness :
  exists index,
    Indexer.build_index Samples.literal_pathspec default_context_config
      Samples.project = Return index
    /\ exists info,
         Dict.get "notes.txt" index = Some info
         /\ Indexer.lines info = None.
Proof.
  destruct (build_index_line_count_invariant Samples.literal_pathspec
              (Samples.literal_spec Samples.project_index_patterns)
              default_context_config Samples.project
              Samples.project_index_patterns)
    as (index & Hbuild & _ & Hentries).
  - vm_compute. reflexivity.
  - reflexivity.
  - exists index. split; [exact Hbuild|].
    vm_compute in Hbuild. injection Hbuild as <-.
    eexists. split; reflexivity.
Defined.


Lemma format_file_empty_content_excluded_witness :
  Collector._format_file Samples.empty_py = "".
Proof.
  destruct (format_file_empty_content_excluded Samples.empty_py) as [H _].
  - reflexivity.
  - exact H.
Defined.

(* ================================================================== *)
(** * Part III: more of the same modules                               *)
(* ================================================================== *)

(** ** flow/utils/files.py: the extension tables *)

Section FilesFacts.

Lemma str_in_true s l : str_in s l = true -> In s l.
Proof.
  unfold str_in. intros H. apply existsb_exists in H.
  destruct H as (x & Hx & E). apply String.eqb_eq in E. now subst.
Qed.

Lemma binary_suffix_not_text s :
  str_in s BINARY_EXTENSIONS = true ->
  str_in s TEXT_EXTENSIONS = false /\ falsy s = false
  /\ dict_get s ext_map "text" = "text".
Proof.
  intros H. apply str_in_true in H. unfold BINARY_EXTENSIONS in H.
  repeat (destruct H as [<-|H]; [repeat split; reflexivity|]).
  contradiction.
Qed.

(** X1.  A path that [is_binary_file] accepts is rejected by [is_text_file], and
    [get_language_from_extension] gives it the fallback tag [text]: no
    extension is in both tables, and none of the binary ones has a
    language. *)
Theorem binary_and_text_are_disjoint (path : Path) :
  is_binary_file path = true ->
  is_text_file path = false
  /\ get_language_from_extension path = "text".
Proof.
  unfold is_binary_file, is_text_file, get_language_from_extension.
  intros H. apply binary_suffix_not_text in H. destruct H as (Ht & Hf & Hl).
  now rewrite Ht, Hf, Hl.
Qed.

Lemma language_suffix_is_text s :
  dict_get s ext_map "text" <> "text" -> str_in s TEXT_EXTENSIONS = true.
Proof.
  unfold ext_map. cbn [dict_get].
  repeat match goal with
         | |- context [String.eqb s ?k] =>
             destruct (String.eqb_spec s k) as [->|_]; [intros _; reflexivity|]
         end.
  intros H. now contradiction H.
Qed.

(** X2.  Every extension that [get_language_from_extension] maps to a language
    of its own is a text extension: a path with a tag other than [text]
    is a text file and not a binary one. *)
Theorem language_tag_implies_text (path : Path) :
  get_language_from_extension path <> "text" ->
  is_text_file path = true /\ is_binary_file path = false.
Proof.
  unfold get_language_from_extension, is_text_file, is_binary_file.
  intros H. split.
  - now rewrite (language_suffix_is_text _ H).
  - destruct (str_in (lower (suffix path)) BINARY_EXTENSIONS) eqn:E; [|reflexivity].
    apply binary_suffix_not_text in E. destruct E as (_ & _ & E). congruence.
Qed.




Lemma lower_length s : String.length (lower s) = String.length s.
Proof. induction s as [|c t IH]; simpl; [reflexivity | now rewrite IH]. Qed.





(** X4.  The two size limits differ at the bound.  For a text file that
    can be read, with a non-empty content: below 100000 bytes the
    indexer counts its lines and the collector formats it; at exactly
    100000 bytes the collector still formats it in full
    ([read_file_safe] refuses sizes above 100000) while the indexer no
    longer counts its lines (it counts below 100000 only); above, the
    file is in neither. *)
Theorem size_ceilings_differ_at_the_bound (path : Path) content text :
  is_text_file path = true ->
  read_text path = Return text ->
  read_text_utf8 path = Return content -> content <> "" ->
  let formatted :=
    "# " ++ name path ++ nl ++ Collector.fence
         ++ get_language_from_extension path ++ nl ++ content ++ nl
         ++ Collector.fence in
  let counted_lines := Some (Z.of_nat (List.length (splitlines text))) in
  (st_size path < 100000 ->
     Collector._format_file path = formatted
     /\ Indexer.lines (Indexer._create_file_info path) = counted_lines)
  /\ (st_size path = 100000 ->
     Collector._format_file path = formatted
     /\ Indexer.lines (Indexer._create_file_info path) = None)
  /\ (100000 < st_size path ->
     Collector._format_file path = ""
     /\ Indexer.lines (Indexer._create_file_info path) = None).
Proof.
  intros Htext Hread Hutf Hne. cbv zeta.
  unfold Collector._format_file, read_file_safe, default_max_size,
    Indexer._create_file_info, Indexer.LINE_COUNT_CEILING.
  cbn [Indexer.lines]. rewrite Htext, Hread, Hutf. cbn [andb].
  assert (Hfull : falsy content = false)
    by (destruct content; [congruence | reflexivity]).
  split; [|split]; intros Hsize; split.
  - replace (st_size path >? 100000) with false by (symmetry; rewrite Z.gtb_ltb; apply Z.ltb_ge; lia).
    now rewrite Hfull.
  - replace (st_size path <? 100000) with true by (symmetry; apply Z.ltb_lt; lia).
    reflexivity.
  - replace (st_size path >? 100000) with false by (symmetry; rewrite Z.gtb_ltb; apply Z.ltb_ge; lia).
    now rewrite Hfull.
  - replace (st_size path <? 100000) with false by (symmetry; apply Z.ltb_ge; lia).
    reflexivity.
  - replace (st_size path >? 100000) with true by (symmetry; rewrite Z.gtb_ltb; apply Z.ltb_lt; lia).
    reflexivity.
  - replace (st_size path <? 100000) with false by (symmetry; apply Z.ltb_ge; lia).
    reflexivity.
Qed.

End FilesFacts.

(** ** flow/context/indexer.py: the index and its lookups *)

Section IndexerQueriesFacts.
Import PyStr IndexerQueries.

Section MoreDictFacts.
Context {V : Type}.
Implicit Types (d : list (string * V)) (k : string) (v : V).

Lemma dict_get_none_keys k d : Dict.get k d = None <-> ~ In k (Dict.keys d).
Proof.
  induction d as [|[k' v'] t IH]; simpl.
  - tauto.
  - destruct (String.eqb_spec k k') as [->|Hne].
    + split; [discriminate | intros H; exfalso; apply H; now left].
    + rewrite IH. split; [intros H [E|E]; [congruence | tauto] | tauto].
Qed.

Lemma dict_set_fresh k v d :
  Dict.get k d = None -> Dict.set k v d = (d ++ [(k, v)])%list.
Proof.
  induction d as [|[k' v'] t IH]; simpl; [reflexivity|].
  destruct (String.eqb k k'); [discriminate|].
  intros H. now rewrite IH.
Qed.

Lemma dict_set_keys_present k v d :
  Dict.get k d <> None -> Dict.keys (Dict.set k v d) = Dict.keys d.
Proof.
  induction d as [|[k' v'] t IH]; simpl; [congruence|].
  destruct (String.eqb_spec k k') as [->|Hne]; simpl; [reflexivity|].
  intros H. now rewrite IH.
Qed.

Lemma dict_set_nodup k v d :
  NoDup (Dict.keys d) -> NoDup (Dict.keys (Dict.set k v d)).
Proof.
  intros Hd. destruct (Dict.get k d) eqn:E.
  - rewrite dict_set_keys_present by congruence. exact Hd.
  - rewrite dict_set_fresh by exact E. unfold Dict.keys. rewrite map_app.
    apply NoDup_app; [exact Hd | repeat constructor; intros [] |].
    intros x Hx [<-|[]]. now apply dict_get_none_keys in E.
Qed.

Lemma dict_get_in k v d : Dict.get k d = Some v -> In (k, v) d.
Proof.
  induction d as [|[k' v'] t IH]; simpl; [discriminate|].
  destruct (String.eqb_spec k k') as [->|Hne].
  - intros [= ->]. now left.
  - intros H. right. now apply IH.
Qed.

Lemma dict_in_get k v d : NoDup (Dict.keys d) -> In (k, v) d -> Dict.get k d = Some v.
Proof.
  induction d as [|[k' v'] t IH]; simpl; [tauto|].
  intros Hd [E|Hin].
  - injection E as -> ->. now rewrite String.eqb_refl.
  - inversion Hd as [|? ? Hnot Hd']; subst.
    destruct (String.eqb_spec k k') as [->|Hne].
    + exfalso. apply Hnot. change k' with (fst (k', v)). now apply in_map.
    + now apply IH.
Qed.

Lemma dict_get_perm k d d' :
  NoDup (Dict.keys d) -> Permutation d d' -> Dict.get k d' = Dict.get k d.
Proof.
  intros Hd Hp.
  assert (Hd' : NoDup (Dict.keys d')).
  { eapply Permutation_NoDup; [|exact Hd]. now apply Permutation_map. }
  destruct (Dict.get k d) as [v|] eqn:E.
  - apply dict_in_get; [exact Hd'|].
    eapply Permutation_in; [exact Hp|]. now apply dict_get_in.
  - destruct (Dict.get k d') as [v'|] eqn:E'; [|reflexivity].
    apply dict_get_in in E'. apply Permutation_sym in Hp.
    eapply Permutation_in in E'; [|exact Hp].
    apply dict_in_get in E'; [congruence | exact Hd].
Qed.

Lemma dict_of_acc (l acc : list (string * V)) :
  NoDup (Dict.keys (acc ++ l)) ->
  fold_left (fun d kv => Dict.set (fst kv) (snd kv) d) l acc = (acc ++ l)%list.
Proof.
  revert acc. induction l as [|[k v] t IH]; intros acc Hnd; simpl.
  - now rewrite List.app_nil_r.
  - assert (Hfresh : Dict.get k acc = None).
    { apply dict_get_none_keys. intros Hin.
      unfold Dict.keys in Hnd. rewrite map_app in Hnd. simpl in Hnd.
      apply NoDup_remove_2 in Hnd. apply Hnd. apply in_or_app. now left. }
    rewrite dict_set_fresh by exact Hfresh.
    rewrite IH; rewrite <- app_assoc; [reflexivity | exact Hnd].
Qed.

Lemma dict_of_nodup (l : list (string * V)) :
  NoDup (Dict.keys l) -> dict_of l = l.
Proof. intros H. unfold dict_of. now rewrite dict_of_acc. Qed.
End MoreDictFacts.

Lemma index_step_nodup spec index p :
  NoDup (Dict.keys index) -> NoDup (Dict.keys (Indexer.index_step spec index p)).
Proof.
  intros H. unfold Indexer.index_step.
  destruct (negb (is_file p)); [exact H|].
  destruct (is_binary_file p); [exact H|].
  destruct (match_file spec (rel_path p)); [exact H|].
  now apply dict_set_nodup.
Qed.

Lemma fold_index_nodup spec l index :
  NoDup (Dict.keys index) ->
  NoDup (Dict.keys (fold_left (Indexer.index_step spec) l index)).
Proof.
  revert index. induction l as [|p t IH]; simpl; intros index H; [exact H|].
  apply IH, index_step_nodup, H.
Qed.

Lemma build_index_inv from_lines cfg root index :
  Indexer.build_index from_lines cfg root = Return index ->
  exists spec,
    index = fold_left (Indexer.index_step spec) (rglob root) [].
Proof.
  unfold Indexer.build_index.
  destruct (Indexer.index_patterns cfg root) as [patterns|e]; [|discriminate].
  destruct (from_lines "gitignore" patterns) as [spec|e]; [|discriminate].
  intros [= <-]. now exists spec.
Qed.

(** X5.  The index that [build_index] returns has one entry per relative path:
    its keys are distinct, membership and lookup agree, and the entry
    under a key is the [FileInfo] of a path of the walk that has this
    relative path. *)
Theorem build_index_keys_are_paths from_lines cfg root index :
  Indexer.build_index from_lines cfg root = Return index ->
  NoDup (Dict.keys index)
  /\ (forall k info, In (k, info) index <-> Dict.get k index = Some info)
  /\ (forall k info, In (k, info) index ->
        Indexer.relative_path info = k
        /\ exists p, In p (rglob root) /\ rel_path p = k
                     /\ info = Indexer._create_file_info p).
Proof.
  intros H. apply build_index_inv in H. destruct H as [spec ->].
  assert (Hnd : NoDup (Dict.keys (fold_left (Indexer.index_step spec) (rglob root) [])))
    by (apply fold_index_nodup; constructor).
  split; [exact Hnd|]. split.
  - intros k info. split; [now apply dict_in_get | apply dict_get_in].
  - intros k info Hin. apply fold_index_entries in Hin.
    destruct Hin as [[]|(p & Hp & _ & -> & ->)].
    split; [reflexivity|]. now exists p.
Qed.



Lemma suffix_of_not_single nm : String.length (suffix_of nm) <> 1%nat.
Proof.
  destruct nm as [|c t]; simpl; [discriminate|].
  destruct (last_dot_tail t) as [r|]; [|discriminate].
  destruct (1 <? String.length r)%nat eqn:E; [|discriminate].
  apply Nat.ltb_lt in E. lia.
Qed.

(** X7.  In a built index [find_by_extension] only finds files that have a
    suffix; the empty extension (which becomes a lone dot) finds
    nothing, so files without a suffix cannot be looked up this way. *)
Theorem find_by_extension_skips_bare_names from_lines cfg root index :
  Indexer.build_index from_lines cfg root = Return index ->
  (forall ext info,
      In info (find_by_extension index ext) ->
      suffix (Indexer.path info) <> "")
  /\ find_by_extension index "" = [].
Proof.
  intros H. apply build_index_inv in H. destruct H as [spec ->].
  set (index := fold_left (Indexer.index_step spec) (rglob root) []).
  assert (Hval : forall info, In info (Dict.values index) ->
                   exists p, info = Indexer._create_file_info p).
  { intros info Hin. unfold Dict.values in Hin. apply in_map_iff in Hin.
    destruct Hin as ([k i] & <- & Hin). apply fold_index_entries in Hin.
    destruct Hin as [[]|(p & _ & _ & _ & ->)]. now exists p. }
  split.
  - intros ext info Hin. unfold find_by_extension in Hin.
    apply filter_In in Hin. destruct Hin as [Hin Heq].
    destruct (Hval info Hin) as [p ->]. apply String.eqb_eq in Heq.
    cbn [Indexer._create_file_info Indexer.extension Indexer.path] in *.
    intros E. rewrite E in Heq. cbn [lower] in Heq.
    destruct (startswith ext ".") eqn:Es.
    + destruct ext as [|c t]; [discriminate Es | discriminate Heq].
    + discriminate Heq.
  - unfold find_by_extension. cbn [startswith append lower].
    apply filter_none. apply Forall_forall. intros info Hin.
    destruct (Hval info Hin) as [p ->].
    cbn [Indexer._create_file_info Indexer.extension].
    apply String.eqb_neq. intros E.
    apply (suffix_of_not_single (name p)).
    fold (suffix p). rewrite <- (lower_length (suffix p)), E. reflexivity.
Qed.





Lemma count_of_app k l1 l2 :
  count_of k (l1 ++ l2) = count_of k l1 + count_of k l2.
Proof. unfold count_of. rewrite filter_app, length_app. lia. Qed.

Lemma count_of_nonneg k l : 0 <= count_of k l.
Proof. unfold count_of. lia. Qed.

Lemma count_of_single k info :
  count_of k [info] = if String.eqb (summary_key info) k then 1 else 0.
Proof.
  unfold count_of. cbn [filter].
  now destruct (String.eqb (summary_key info) k).
Qed.

Lemma count_step_counted done summary info :
  counted done summary -> counted (done ++ [info]) (count_step summary info).
Proof.
  intros H k. unfold count_step. rewrite count_of_app, count_of_single.
  pose proof (count_of_nonneg k done) as Hk.
  destruct (String.eqb_spec (summary_key info) k) as [E|Hne].
  - subst k. rewrite dict_get_set_same, H.
    destruct (count_of (summary_key info) done =? 0) eqn:E0.
    + apply Z.eqb_eq in E0. rewrite E0. reflexivity.
    + destruct (count_of (summary_key info) done + 1 =? 0) eqn:E1.
      * apply Z.eqb_eq in E1. lia.
      * reflexivity.
  - rewrite dict_get_set_other by congruence. rewrite H.
    now rewrite Z.add_0_r.
Qed.

Lemma fold_count_counted files done summary :
  counted done summary ->
  counted (done ++ files) (fold_left count_step files summary).
Proof.
  revert done summary. induction files as [|info t IH]; intros done summary H.
  - now rewrite List.app_nil_r.
  - cbn [fold_left].
    replace (done ++ info :: t)%list with ((done ++ [info]) ++ t)%list
      by (now rewrite <- app_assoc).
    apply IH, count_step_counted, H.
Qed.

Lemma fold_count_nodup files summary :
  NoDup (Dict.keys summary) ->
  NoDup (Dict.keys (fold_left count_step files summary)).
Proof.
  revert summary. induction files as [|info t IH]; intros summary H; [exact H|].
  cbn [fold_left]. apply IH. unfold count_step. now apply dict_set_nodup.
Qed.

Lemma sum_counts_app d1 d2 : sum_counts (d1 ++ d2) = sum_counts d1 + sum_counts d2.
Proof.
  unfold sum_counts. rewrite map_app.
  induction (map snd d1) as [|x t IH]; simpl; lia.
Qed.

Lemma sum_counts_set k v (d : list (string * Z)) :
  sum_counts (Dict.set k v d)
  = sum_counts d - match Dict.get k d with Some n => n | None => 0 end + v.
Proof.
  induction d as [|[k' v'] t IH]; cbn [Dict.set Dict.get].
  - unfold sum_counts. simpl. lia.
  - destruct (String.eqb k k').
    + unfold sum_counts. simpl. lia.
    + change (sum_counts ((k', v') :: ?l)) with (v' + sum_counts l).
      rewrite IH. lia.
Qed.

Lemma fold_count_sum files summary :
  sum_counts (fold_left count_step files summary)
  = sum_counts summary + Z.of_nat (List.length files).
Proof.
  revert summary. induction files as [|info t IH]; intros summary.
  - simpl. lia.
  - cbn [fold_left]. rewrite IH. unfold count_step. rewrite sum_counts_set.
    cbn [List.length]. lia.
Qed.

Lemma sum_counts_perm d d' : Permutation d d' -> sum_counts d = sum_counts d'.
Proof.
  unfold sum_counts. induction 1; simpl; lia.
Qed.

Lemma by_count_desc_total a b :
  by_count_desc a b = true \/ by_count_desc b a = true.
Proof. unfold by_count_desc. rewrite !Z.leb_le. lia. Qed.

Lemma by_count_desc_trans a b c :
  by_count_desc a b = true -> by_count_desc b c = true ->
  by_count_desc a c = true.
Proof. unfold by_count_desc. rewrite !Z.leb_le. lia. Qed.

(** X9.  [get_summary] maps every extension (or [(no extension)]) to the
    number of indexed files that have it and has no entry for others;
    its keys are distinct, its entries are in descending order of
    count, and the counts add up to the number of indexed files. *)
Theorem get_summary_counts_by_extension idx :
  let files := get_all_files idx in
  (forall k, Dict.get k (get_summary idx)
             = if count_of k files =? 0 then None else Some (count_of k files))
  /\ NoDup (Dict.keys (get_summary idx))
  /\ StronglySorted (fun a b => snd b <= snd a) (get_summary idx)
  /\ sum_counts (get_summary idx) = Z.of_nat (List.length files).
Proof.
  intros files. unfold get_summary, get_all_files in *. fold files.
  set (summary := fold_left count_step files []).
  assert (Hnd : NoDup (Dict.keys summary))
    by (apply fold_count_nodup; constructor).
  assert (Hperm : Permutation (sort_by by_count_desc summary) summary)
    by apply sort_by_perm.
  assert (Hnd' : NoDup (Dict.keys (sort_by by_count_desc summary))).
  { eapply Permutation_NoDup; [|exact Hnd].
    apply Permutation_map, Permutation_sym, Hperm. }
  rewrite (dict_of_nodup _ Hnd').
  split; [|split; [exact Hnd'|split]].
  - intros k. rewrite (dict_get_perm k summary) by (auto using Permutation_sym).
    apply (fold_count_counted files [] []). intros k'. reflexivity.
  - eapply StronglySorted_impl;
      [|apply sort_by_sorted;
        [apply by_count_desc_total | apply by_count_desc_trans]].
    intros a b H. unfold by_count_desc in H. apply Z.leb_le in H. lia.
  - rewrite (sum_counts_perm _ _ Hperm). unfold summary.
    rewrite fold_count_sum. reflexivity.
Qed.

End IndexerQueriesFacts.

(** ** flow/context/collector.py: the summary, the cap and the tree *)

Section CollectorMore.
Import TreeKeys.







Lemma find_files_inv from_lines cfg path files :
  Collector._find_files from_lines cfg path = Return files ->
  exists patterns spec,
    Collector.find_patterns cfg path = Return patterns
    /\ from_lines "gitwildmatch" patterns = Return spec
    /\ files = sort_by Collector.newer_first (Collector.candidates spec path).
Proof.
  unfold Collector._find_files.
  destruct (Collector.find_patterns cfg path) as [patterns|e]; [|discriminate].
  destruct (from_lines "gitwildmatch" patterns) as [spec|e] eqn:E; [|discriminate].
  intros [= <-]. now exists patterns, spec.
Qed.

Lemma slice_to_negative {A} n (l : list A) :
  n < 0 -> slice_to n l = firstn (List.length l - Z.to_nat (- n)) l.
Proof.
  intros H. unfold slice_to.
  destruct (n <? 0) eqn:E; [|apply Z.ltb_ge in E; lia].
  f_equal. lia.
Qed.

Lemma In_slice_to {A} (x : A) n l : In x (slice_to n l) -> In x l.
Proof. unfold slice_to. destruct (n <? 0); apply In_firstn. Qed.

(** X11.  A negative [max_files] does not disable the collection: the slice
    [files[:max_files]] then drops the last [-max_files] files (the
    oldest ones) and the rest is formatted. *)
Theorem collect_directory_negative_cap from_lines cfg path files :
  Collector._find_files from_lines cfg path = Return files ->
  max_files cfg < 0 ->
  let dropped := Z.to_nat (- max_files cfg) in
  let chosen := firstn (List.length files - dropped) files in
  Collector._collect_directory from_lines cfg path
  = Return (join (nl ++ nl) (Collector.blocks chosen))
  /\ (List.length chosen = List.length files - dropped)%nat.
Proof.
  intros Hfind Hneg dropped chosen. split.
  - unfold Collector._collect_directory. rewrite Hfind.
    now rewrite slice_to_negative.
  - unfold chosen. rewrite length_firstn. lia.
Qed.

(** X12.  Every block of the text that [_collect_directory] returns comes from
    a regular file of the walk that is not binary, is not matched by the
    ignore patterns, has at most 100000 bytes and a readable, non-empty
    content, and the block is the fenced format of that file. *)
Theorem collect_directory_blocks_come_from_kept_files
    from_lines cfg path out :
  Collector._collect_directory from_lines cfg path = Return out ->
  exists patterns spec blocks,
    Collector.find_patterns cfg path = Return patterns
    /\ from_lines "gitwildmatch" patterns = Return spec
    /\ out = join (nl ++ nl) blocks
    /\ forall b, In b blocks ->
         exists f content,
           In f (rglob path)
           /\ is_file f = true /\ is_binary_file f = false
           /\ (truthy spec = true -> match_file spec (rel_path f) = false)
           /\ st_size f <= 100000
           /\ read_text_utf8 f = Return content /\ content <> ""
           /\ b = "# " ++ name f ++ nl ++ Collector.fence
                  ++ get_language_from_extension f ++ nl ++ content ++ nl
                  ++ Collector.fence.
Proof.
  unfold Collector._collect_directory.
  destruct (Collector._find_files from_lines cfg path) as [files|e] eqn:E;
    [|discriminate].
  intros [= <-]. apply find_files_inv in E.
  destruct E as (patterns & spec & Hpatterns & Hspec' & ->).
  exists patterns, spec. eexists.
  split; [exact Hpatterns|]. split; [exact Hspec'|]. split; [reflexivity|].
  intros b Hb. apply blocks_In in Hb. destruct Hb as (f & Hf & -> & Hne).
  apply In_slice_to in Hf.
  eapply Permutation_in in Hf; [|apply sort_by_perm].
  unfold Collector.candidates in Hf. apply filter_In in Hf.
  destruct Hf as [Hin Hkeep].
  apply andb_true_iff in Hkeep. destruct Hkeep as [Hkeep Hspec].
  apply andb_true_iff in Hkeep. destruct Hkeep as [Hfile Hbin].
  apply negb_true_iff in Hbin, Hspec.
  unfold Collector._format_file, read_file_safe, default_max_size in *.
  destruct (st_size f >? 100000) eqn:Hsize; [congruence|].
  destruct (read_text_utf8 f) as [content|e] eqn:Hread; [|congruence].
  destruct content as [|c t]; [cbn in Hne; congruence|].
  exists f, (String c t).
  split; [exact Hin|]. split; [exact Hfile|]. split; [exact Hbin|].
  split; [intros Ht; now rewrite Ht in Hspec|].
  split; [rewrite Z.gtb_ltb in Hsize; now apply Z.ltb_ge in Hsize|].
  split; [exact Hread|]. split; [discriminate | reflexivity].
Qed.





End CollectorMore.

(** ** flow/auth.py: the login URL, PKCE sizes and the token store *)

Example url_sample :
  AuthLogin.get_authorization_url "test state" "a&b=c/d"
  = AuthLogin.url_head ++ "test+state&code_challenge=a%26b%3Dc%2Fd"
    ++ "&code_challenge_method=S256".
Proof. vm_compute. reflexivity. Qed.

Section UrlFacts.
Import Json Bytes Base64 Base64Spec Auth AuthSpec Urllib AuthLogin.
Local Open Scope N_scope.

Lemma all_chars_app p a b :
  all_chars p (a ++ b) = all_chars p a && all_chars p b.
Proof. induction a; simpl; [reflexivity|]. now rewrite IHa, andb_assoc. Qed.

Lemma quote_plus_char_ok x : all_chars url_char_ok (quote_plus_char x) = true.
Proof. destruct x as [[] [] [] [] [] [] [] []]; vm_compute; reflexivity. Qed.

Lemma quote_plus_ok s : all_chars url_char_ok (quote_plus s) = true.
Proof.
  induction s as [|x t IH]; [reflexivity|].
  cbn [quote_plus]. now rewrite all_chars_app, quote_plus_char_ok, IH.
Qed.

Lemma count_char_app c a b :
  count_char c (a ++ b) = (count_char c a + count_char c b)%nat.
Proof. induction a; simpl; [reflexivity|]. rewrite IHa. lia. Qed.

Lemma count_char_absent c s :
  url_char_ok c = false ->
  all_chars url_char_ok s = true -> count_char c s = 0%nat.
Proof.
  intros Hc. induction s as [|x t IH]; [reflexivity|].
  cbn [all_chars count_char]. intros H. apply andb_prop in H as [Hx Ht].
  rewrite (IH Ht). destruct (Ascii.eqb_spec c x) as [->|]; [congruence|reflexivity].
Qed.

Lemma get_authorization_url_eq state code_challenge :
  get_authorization_url state code_challenge
  = url_head ++ quote_plus state ++ "&code_challenge="
    ++ quote_plus code_challenge ++ "&code_challenge_method=S256".
Proof.
  unfold get_authorization_url, urlencode.
  cbn [map fst snd join].
  reflexivity.
Qed.

(** X25.  Whatever the state and the challenge are, the authorization URL has
    one question mark, seven equal signs and six ampersands, and no
    space or hash: the values are escaped, so they cannot add or end a
    parameter. *)
Theorem authorization_url_keeps_its_seven_parameters state code_challenge :
  let url := get_authorization_url state code_challenge in
  count_char "&" url = 6%nat
  /\ count_char "=" url = 7%nat
  /\ count_char "?" url = 1%nat
  /\ count_char "#" url = 0%nat
  /\ count_char " " url = 0%nat.
Proof.
  cbv zeta. rewrite get_authorization_url_eq.
  repeat split;
    rewrite !count_char_app;
    rewrite !(count_char_absent _ (quote_plus _)) by (reflexivity || apply quote_plus_ok);
    reflexivity.
Qed.

End UrlFacts.

Section PkceMore.
Import Json Bytes Base64 Base64Spec Auth AuthSpec Urllib AuthLogin.
Local Open Scope N_scope.

Lemma encode_nopad_length l :
  List.length (encode_nopad l) = ((4 * List.length l + 2) / 3)%nat.
Proof.
  induction l as [|a|a b|a b c t IH] using list_ind3; try reflexivity.
  cbn [encode_nopad List.length]. rewrite IH.
  replace (4 * S (S (S (List.length t))) + 2)%nat
    with ((4 * List.length t + 2) + 4 * 3)%nat by lia.
  rewrite Nat.div_add by lia. lia.
Qed.

Lemma sha256_length msg : List.length (Sha256.sha256 msg) = 32%nat.
Proof. unfold Sha256.sha256, Sha256.bytes_of_word. reflexivity. Qed.

Lemma string_of_list_byte_length l :
  String.length (string_of_list_byte l) = List.length l.
Proof. induction l; simpl; auto. Qed.

Lemma urlsafe_text_digits l :
  Forall is_digit64 l -> urlsafe_text (string_of_list_byte l).
Proof.
  induction 1 as [|b t (i & Hi & ->) _ IH]; [exact I|].
  split; [|exact IH]. now rewrite value_of_digit.
Qed.

Lemma token_urlsafe_eq tok :
  token_urlsafe tok = Return (string_of_list_byte (encode_nopad tok)).
Proof.
  unfold token_urlsafe.
  now rewrite rstrip_encode, decode_ascii_digits by apply encode_nopad_digits.
Qed.

Lemma generate_pkce_eq tok :
  generate_pkce tok
  = Return (string_of_list_byte (encode_nopad tok),
            string_of_list_byte
              (encode_nopad (Sha256.sha256 (encode_nopad tok)))).
Proof.
  unfold generate_pkce. rewrite token_urlsafe_eq.
  rewrite encode_ascii_digits by apply encode_nopad_digits.
  now rewrite rstrip_encode, decode_ascii_digits by apply encode_nopad_digits.
Qed.

Lemma digit_always_safe i :
  i < 64 -> always_safe (ascii_of_byte (digit i)) = true.
Proof.
  intros Hi.
  assert (Hall : forallb (fun k => always_safe (ascii_of_byte (digit (N.of_nat k))))
                         (seq 0 64) = true) by (vm_compute; reflexivity).
  rewrite forallb_forall in Hall.
  specialize (Hall (N.to_nat i)). rewrite N2Nat.id in Hall.
  apply Hall, in_seq. lia.
Qed.

Lemma quote_plus_digits l :
  Forall is_digit64 l ->
  quote_plus (string_of_list_byte l) = string_of_list_byte l.
Proof.
  induction 1 as [|b t (i & Hi & ->) _ IH]; [reflexivity|].
  change (string_of_list_byte (digit i :: t))
    with (String (ascii_of_byte (digit i)) (string_of_list_byte t)).
  cbn [quote_plus]. unfold quote_plus_char.
  rewrite digit_always_safe by exact Hi. now rewrite IH.
Qed.

(** X23.  For the 32 random bytes that [generate_pkce] draws, the verifier and
    the challenge both have 43 characters, all of the URL-safe base64
    alphabet. *)
Theorem generate_pkce_sizes tok :
  List.length tok = 32%nat ->
  exists code_verifier code_challenge,
    generate_pkce tok = Return (code_verifier, code_challenge)
    /\ String.length code_verifier = 43%nat
    /\ String.length code_challenge = 43%nat
    /\ urlsafe_text code_verifier
    /\ urlsafe_text code_challenge.
Proof.
  intros Hlen. rewrite generate_pkce_eq. eexists _, _.
  split; [reflexivity|].
  rewrite !string_of_list_byte_length, !encode_nopad_length, sha256_length, Hlen.
  split; [reflexivity|]. split; [reflexivity|].
  split; apply urlsafe_text_digits, encode_nopad_digits.
Qed.

(** X24.  [token_urlsafe] loses nothing of the random bytes: decoding its
    result gives them back.  The result has [ceil(4n/3)] characters for
    [n] bytes, and [quote_plus] leaves it unchanged. *)
Theorem token_urlsafe_roundtrip tok :
  exists text,
    token_urlsafe tok = Return text
    /\ urlsafe_b64decode_nopad text = Some tok
    /\ String.length text = ((4 * List.length tok + 2) / 3)%nat
    /\ quote_plus text = text.
Proof.
  rewrite token_urlsafe_eq. eexists. split; [reflexivity|].
  split; [apply decode_encode_nopad|].
  split; [now rewrite string_of_list_byte_length, encode_nopad_length|].
  apply quote_plus_digits, encode_nopad_digits.
Qed.

(** X26.  [login] returns the verifier and the state it generated, and the URL
    it opens carries that state and the S256 challenge of that verifier,
    unescaped, after the fixed parameters. *)
Theorem login_url_carries_challenge verifier_bytes state_bytes :
  exists code_verifier code_challenge state,
    generate_pkce verifier_bytes = Return (code_verifier, code_challenge)
    /\ token_urlsafe state_bytes = Return state
    /\ login verifier_bytes state_bytes
       = Return ((code_verifier, state),
                 url_head ++ state ++ "&code_challenge=" ++ code_challenge
                 ++ "&code_challenge_method=S256").
Proof.
  unfold login. rewrite generate_pkce_eq, token_urlsafe_eq.
  eexists _, _, _. split; [reflexivity|]. split; [reflexivity|].
  rewrite get_authorization_url_eq.
  now rewrite !quote_plus_digits by apply encode_nopad_digits.
Qed.

End PkceMore.

Section AuthMore.
Import Json JsonSpec Bytes Auth AuthSpec AuthLogin.



Lemma loads_raises s e : loads s = Raise e -> e = JSONDecodeError.
Proof.
  unfold loads.
  destruct (parse_value _ _) as [[v rest]|]; [destruct (skip_ws rest)|];
    congruence.
Qed.

Lemma load_tokens_fst w :
  fst (load_tokens w)
  = match AUTH_FILE w with
    | None => Return None
    | Some f =>
        match loads (content f) with
        | Raise _ => Return None
        | Return (VDict d) =>
            match Dict.get "access_token" d, Dict.get "refresh_token" d,
                  Dict.get "expires_at" d with
            | Some a, Some r, Some x => Return (Some (mkTokenData a r x))
            | _, _, _ => Return None
            end
        | Return _ => Raise TypeError
        end
    end.
Proof.
  unfold load_tokens, bind, try_except, file_exists, file_read, lift, ret, raise.
  destruct (AUTH_FILE w) as [f|] eqn:E; cbn; [rewrite E | reflexivity].
  destruct (loads (content f)) as [data|e] eqn:L; cbn.
  2: { apply loads_raises in L. now subst e. }
  destruct data as [| | | | |d]; cbn; try reflexivity.
  destruct (Dict.get "access_token" d); cbn; [|reflexivity].
  destruct (Dict.get "refresh_token" d); cbn; [|reflexivity].
  destruct (Dict.get "expires_at" d); reflexivity.
Qed.




(** X17.  A stored expiry that is not a number (a string, [null], a list, an
    object) makes [get_access_token] raise [TypeError]: the comparison
    is outside the [try] statement.  The clock has been read, no request
    is made and the token file is untouched. *)
Theorem get_access_token_non_numeric_expiry w tok :
  fst (load_tokens w) = Return (Some tok) ->
  as_number (expires_at tok) = Raise TypeError ->
  get_access_token w = (Raise TypeError, tick w).
Proof.
  intros Hload He. apply load_tokens_eq in Hload.
  unfold get_access_token, bind at 1. rewrite Hload.
  unfold bind at 1, time_time. unfold bind at 1, lift. now rewrite He.
Qed.

(** X18.  [delete_tokens] returns whether a token file existed and removes it,
    changing nothing else.  Afterwards [load_tokens] returns [None], a
    second [delete_tokens] returns [False], and [get_access_token] and
    [is_authenticated] answer [None] and [False] without reading the
    clock or making a request. *)
Theorem delete_tokens_logs_out w :
  let w' := snd (delete_tokens w) in
  fst (delete_tokens w)
  = Return (match AUTH_FILE w with Some _ => true | None => false end)
  /\ w' = set_file None w
  /\ load_tokens w' = (Return None, w')
  /\ delete_tokens w' = (Return false, w')
  /\ get_access_token w' = (Return VNone, w')
  /\ is_authenticated w' = (Return false, w').
Proof.
  cbv zeta.
  assert (Hw : snd (delete_tokens w) = set_file None w).
  { unfold delete_tokens, bind, file_exists, file_unlink, ret.
    destruct w as [[f|] u c t s tr]; reflexivity. }
  split.
  { unfold delete_tokens, bind, file_exists, file_unlink, ret.
    destruct (AUTH_FILE w) eqn:E; cbn; [rewrite E|]; reflexivity. }
  rewrite Hw. repeat split.
Qed.



(** X19.  [exchange_code] subscripts the response: an answer with a success
    status and an access token but no refresh token makes it, and
    [complete_login], raise [KeyError].  The request has been made, and
    the token file is left as it was. *)
Theorem exchange_code_needs_a_refresh_token code code_verifier w status body d a secs :
  server w (List.length (posts w)) (exchange_form code code_verifier)
  = Response status body ->
  200 <= status <= 299 ->
  loads body = Return (VDict d) ->
  Dict.get "access_token" d = Some a ->
  Dict.get "refresh_token" d = None ->
  as_number (get_default d "expires_in" (VInt 3600)) = Return secs ->
  fst (exchange_code code code_verifier w) = Raise (KeyError "refresh_token")
  /\ fst (complete_login code code_verifier w) = Raise (KeyError "refresh_token")
  /\ AUTH_FILE (snd (complete_login code code_verifier w)) = AUTH_FILE w
  /\ trace (snd (complete_login code code_verifier w))
     = Posted TOKEN_URL (exchange_form code code_verifier) :: trace w.
Proof.
  intros Hserver Hstatus Hbody Haccess Hrefresh Hsecs.
  assert (Hok : (200 <=? status) && (status <=? 299) = true).
  { apply andb_true_intro. split; apply Z.leb_le; lia. }
  assert (Hex : exchange_code code code_verifier w
                = (Raise (KeyError "refresh_token"),
                   tick (log_event (Posted TOKEN_URL (exchange_form code code_verifier)) w))).
  { unfold exchange_code, bind at 1, client_post.
    fold (exchange_form code code_verifier). rewrite Hserver.
    unfold bind at 1, raise_for_status. cbn [fst snd].
    rewrite Hok. unfold ret at 1.
    unfold bind at 1, lift at 1. rewrite Hbody.
    unfold bind at 1, lift at 1. cbn [get].
    unfold get_default in *.
    destruct (Dict.get "expires_in" d) as [x|];
      unfold bind at 1, time_time, bind at 1, lift at 1; rewrite Hsecs;
      unfold bind at 1, lift at 1; cbn [getitem]; rewrite Haccess;
      unfold bind at 1, lift at 1; rewrite Hrefresh; reflexivity. }
  assert (Hcl : complete_login code code_verifier w
                = (Raise (KeyError "refresh_token"),
                   tick (log_event (Posted TOKEN_URL (exchange_form code code_verifier)) w))).
  { unfold complete_login, bind at 1. now rewrite Hex. }
  rewrite Hex, Hcl. repeat split.
Qed.




End AuthMore.

(** ** The indexer and the collector together; retries *)

Section IndexAndCollection.

Lemma patterns_permuted cfg root ip fp :
  Indexer.index_patterns cfg root = Return ip ->
  Collector.find_patterns cfg root = Return fp ->
  Permutation ip fp.
Proof.
  unfold Indexer.index_patterns, Collector.find_patterns.
  destruct (child root ".gitignore") as [g|].
  - destruct (read_text g) as [s|e]; [|discriminate].
    intros [= <-] [= <-]. apply Permutation_app_comm.
  - intros [= <-] [= <-]. apply Permutation_refl.
Qed.

(** X27.  The index and the collection keep the same files.  Both load
    the configured patterns and the lines of the root's [.gitignore],
    in opposite orders; when the two compiled specifications agree on
    the paths of the walk, the keys of the index are the relative paths
    of the files [_find_files] returns, and the index has no more
    entries than there are files. *)
Theorem index_and_collection_keep_the_same_files
    from_lines cfg root ip fp ispec fspec :
  Indexer.index_patterns cfg root = Return ip ->
  from_lines "gitignore" ip = Return ispec ->
  Collector.find_patterns cfg root = Return fp ->
  from_lines "gitwildmatch" fp = Return fspec ->
  (forall f, In f (rglob root) ->
     match_file ispec (rel_path f)
     = truthy fspec && match_file fspec (rel_path f)) ->
  exists index files,
    Indexer.build_index from_lines cfg root = Return index
    /\ Collector._find_files from_lines cfg root = Return files
    /\ Permutation ip fp
    /\ (forall k, In k (Dict.keys index) <-> In k (map rel_path files))
    /\ (List.length index <= List.length files)%nat.
Proof.
  intros Hip Hispec Hfp Hfspec Hagree.
  unfold Indexer.build_index, Collector._find_files.
  rewrite Hip, Hispec, Hfp, Hfspec.
  eexists _, _. split; [reflexivity|]. split; [reflexivity|].
  split; [exact (patterns_permuted cfg root ip fp Hip Hfp)|].
  assert (Hperm : Permutation (sort_by Collector.newer_first
                                 (Collector.candidates fspec root))
                              (Collector.candidates fspec root))
    by apply sort_by_perm.
  assert (Hcand : forall p, In p (Collector.candidates fspec root) <->
                            In p (rglob root) /\ Indexer.indexed ispec p).
  { intros p. unfold Collector.candidates, Indexer.indexed.
    rewrite filter_In. split.
    - intros [Hin Hkeep]. split; [exact Hin|].
      apply andb_true_iff in Hkeep. destruct Hkeep as [Hkeep Hs].
      apply andb_true_iff in Hkeep. destruct Hkeep as [Hf Hb].
      apply negb_true_iff in Hb, Hs. rewrite (Hagree p Hin). auto.
    - intros [Hin (Hf & Hb & Hs)]. split; [exact Hin|].
      rewrite Hf, Hb, <- (Hagree p Hin), Hs. reflexivity. }
  assert (Hkeys : forall k,
            In k (Dict.keys (fold_left (Indexer.index_step ispec) (rglob root) []))
            <-> In k (map rel_path (Collector.candidates fspec root))).
  { intros k. split.
    - intros Hk. unfold Dict.keys in Hk. apply in_map_iff in Hk.
      destruct Hk as ([k' info] & <- & Hin).
      apply fold_index_entries in Hin.
      destruct Hin as [[]|(p & Hp & Hind & -> & _)].
      apply in_map_iff. exists p. split; [reflexivity|].
      apply Hcand. now split.
    - intros Hk. apply in_map_iff in Hk. destruct Hk as (p & <- & Hp).
      apply Hcand in Hp. destruct Hp as [Hin Hind].
      pose proof (fold_index_has ispec (rglob root) [] p Hin Hind) as Hget.
      destruct (in_dec string_dec (rel_path p) (Dict.keys (fold_left (Indexer.index_step ispec) (rglob root) []))) as [Hyes|Hno]; [exact Hyes|]. apply dict_get_none_keys in Hno. contradiction. }
  split.
  - intros k. rewrite Hkeys. split; intros Hk; apply in_map_iff in Hk;
      destruct Hk as (p & <- & Hp); apply in_map; 
      [eapply Permutation_in; [apply Permutation_sym, Hperm | exact Hp]
      | eapply Permutation_in; [apply Hperm | exact Hp]].
  - rewrite (Permutation_length Hperm).
    assert (Hnd : NoDup (Dict.keys (fold_left (Indexer.index_step ispec) (rglob root) [])))
      by (apply fold_index_nodup; constructor).
    replace (List.length (fold_left (Indexer.index_step ispec) (rglob root) []))
      with (List.length (Dict.keys (fold_left (Indexer.index_step ispec) (rglob root) [])))
      by apply length_map.
    rewrite <- (length_map rel_path (Collector.candidates fspec root)).
    apply NoDup_incl_length; [exact Hnd|].
    intros k Hk. now apply Hkeys.
Qed.

End IndexAndCollection.

Section AuthRetry.
Import Json JsonSpec Auth AuthSpec AuthLogin.

Lemma load_tokens_same_file w w' :
  AUTH_FILE w' = AUTH_FILE w -> fst (load_tokens w') = fst (load_tokens w).
Proof. intros H. now rewrite !load_tokens_fst, H. Qed.

(** X28.  A failed refresh changes nothing in the store: the call
    returns [None], the token file is as it was, and a later call with
    the token still expiring makes another refresh request. *)
Theorem failed_refresh_keeps_the_tokens w tok e ex w' :
  fst (load_tokens w) = Return (Some tok) ->
  expires_at tok = VInt e ->
  e <= now w + 300 ->
  refresh_tokens (refresh_token tok) (tick w) = (Raise ex, w') ->
  let w1 := snd (get_access_token w) in
  fst (get_access_token w) = Return VNone
  /\ AUTH_FILE w1 = AUTH_FILE w
  /\ fst (load_tokens w1) = Return (Some tok)
  /\ (e <= now w1 + 300 ->
      refresh_attempts (snd (get_access_token w1))
      = S (S (refresh_attempts w))).
Proof.
  intros Hload He Hexp Hfail. cbv zeta.
  rewrite (get_access_token_loaded w tok e Hload He).
  assert (Hge : (now w >=? e - 300) = true) by (apply Z.geb_le; lia).
  rewrite Hge.
  destruct (refresh_tokens_effect (refresh_token tok) (tick w))
    as (Htrace & Hfile & _).
  rewrite Hfail in Htrace, Hfile. cbn [snd] in Htrace, Hfile.
  destruct (refresh_branch_failure tok (tick w) ex w' Hfail) as [msg ->].
  cbn [fst snd].
  assert (Hsame : AUTH_FILE (log_event (Warned msg) w') = AUTH_FILE w)
    by exact Hfile.
  split; [reflexivity|]. split; [exact Hsame|].
  assert (Hload1 : fst (load_tokens (log_event (Warned msg) w'))
                   = Return (Some tok))
    by (now rewrite (load_tokens_same_file w _ Hsame)).
  split; [exact Hload1|].
  intros Hstill.
  rewrite (get_access_token_loaded _ tok e Hload1 He).
  assert (Hge1 : (now (log_event (Warned msg) w') >=? e - 300) = true)
    by (apply Z.geb_le; lia).
  rewrite Hge1. unfold refresh_attempts.
  destruct (refresh_branch_trace tok (tick (log_event (Warned msg) w')))
    as (warnings & -> & Hwarn).
  rewrite filter_app.
  rewrite (filter_none is_refresh_post warnings).
  2: { eapply Forall_impl; [|exact Hwarn]. intros ev. apply refresh_post_is_post. }
  cbn [app tick trace log_event]. rewrite Htrace. reflexivity.
Qed.

End AuthRetry.

(** ** Runs of the theorems above on the samples *)

Lemma binary_and_text_are_disjoint_witness :
  is_text_file MoreSamples.logo_png = false
  /\ get_language_from_extension MoreSamples.logo_png = "text".
Proof.
  apply (binary_and_text_are_disjoint MoreSamples.logo_png). reflexivity.
Defined.

Lemma language_tag_implies_text_witness :
  is_text_file MoreSamples.main_py = true
  /\ is_binary_file MoreSamples.main_py = false.
Proof.
  apply (language_tag_implies_text MoreSamples.main_py).
  vm_compute. discriminate.
Defined.


Lemma iter_string_length n c :
  String.length (N.iter n (String c) "") = N.to_nat n.
Proof.
  induction n as [|n IH] using N.peano_ind; [reflexivity|].
  rewrite N.iter_succ, N2Nat.inj_succ. cbn [String.length]. now rewrite IH.
Qed.

Lemma big_py_size : st_size MoreSamples.big_py = 100000.
Proof.
  unfold st_size, MoreSamples.big_py, Samples.text_file.
  cbn [target fd_size]. now rewrite iter_string_length, N_nat_Z.
Qed.

Lemma size_ceilings_differ_at_the_bound_witness :
  st_size MoreSamples.big_py = 100000
  /\ Collector._format_file MoreSamples.big_py <> ""
  /\ Indexer.lines (Indexer._create_file_info MoreSamples.big_py) = None.
Proof.
  destruct (size_ceilings_differ_at_the_bound MoreSamples.big_py
              (N.iter 100000 (String "#") "") (N.iter 100000 (String "#") ""))
    as (_ & Hbound & _).
  - lazy. reflexivity.
  - reflexivity.
  - reflexivity.
  - change 100000%N with (N.succ 99999). rewrite N.iter_succ. discriminate.
  - destruct (Hbound big_py_size) as [Hformat Hlines].
    split; [exact big_py_size|]. split; [|exact Hlines].
    rewrite Hformat. discriminate.
Defined.

Section IndexWitnesses.
Import PyStr IndexerQueries.

Lemma build_index_keys_are_paths_witness :
  exists index,
    Indexer.build_index Samples.literal_pathspec default_context_config
      Samples.project = Return index
    /\ NoDup (Dict.keys index)
    /\ forall k info, In (k, info) index -> Indexer.relative_path info = k.
Proof.
  eexists. split; [vm_compute; reflexivity|].
  destruct (build_index_keys_are_paths Samples.literal_pathspec
              default_context_config Samples.project _
              ltac:(vm_compute; reflexivity))
    as (Hnodup & _ & Hentries).
  split; [exact Hnodup|].
  intros k info Hin. apply (Hentries k info Hin).
Defined.


Lemma find_by_extension_skips_bare_names_witness :
  exists index,
    Indexer.build_index Samples.literal_pathspec default_context_config
      Samples.project = Return index
    /\ find_by_extension index "" = [].
Proof.
  eexists. split; [vm_compute; reflexivity|].
  apply (find_by_extension_skips_bare_names Samples.literal_pathspec
           default_context_config Samples.project).
  vm_compute. reflexivity.
Defined.

End IndexWitnesses.

Section CollectorWitnesses.
Import TreeKeys.


Lemma collect_directory_negative_cap_witness :
  exists files,
    Collector._find_files Samples.literal_pathspec MoreSamples.all_but_one
      Samples.project = Return files
    /\ List.length files = 7%nat
    /\ Collector._collect_directory Samples.literal_pathspec
         MoreSamples.all_but_one Samples.project
       = Return (join (nl ++ nl) (Collector.blocks (firstn 6 files))).
Proof.
  eexists. split; [vm_compute; reflexivity|]. split; [reflexivity|].
  match goal with
  | |- _ = Return (join _ (Collector.blocks (firstn _ ?files))) =>
      destruct (collect_directory_negative_cap Samples.literal_pathspec
                  MoreSamples.all_but_one Samples.project files)
        as [Hout _]
  end.
  - vm_compute. reflexivity.
  - reflexivity.
  - exact Hout.
Defined.

Lemma collect_directory_blocks_come_from_kept_files_witness :
  exists out blocks,
    Collector._collect_directory Samples.literal_pathspec Samples.two_files
      Samples.project = Return out
    /\ out = join (nl ++ nl) blocks
    /\ forall b, In b blocks ->
         exists f, In f (rglob Samples.project)
                   /\ is_binary_file f = false /\ st_size f <= 100000.
Proof.
  eexists.
  destruct (collect_directory_blocks_come_from_kept_files
              Samples.literal_pathspec Samples.two_files Samples.project _
              ltac:(vm_compute; reflexivity))
    as (patterns & spec & blocks & _ & _ & Hout & Hblocks).
  exists blocks. split; [vm_compute; reflexivity|]. split; [exact Hout|].
  intros b Hb. destruct (Hblocks b Hb) as (f & content & Hin & _ & Hbin & _ & Hsize & _).
  exists f. repeat split; assumption.
Defined.


End CollectorWitnesses.

Section AuthWitnesses.
Import Json JsonSpec Auth AuthSpec AuthLogin.


Lemma get_access_token_non_numeric_expiry_witness :
  fst (get_access_token MoreSamples.expiry_as_text) = Raise TypeError
  /\ trace (snd (get_access_token MoreSamples.expiry_as_text)) = [].
Proof.
  rewrite (get_access_token_non_numeric_expiry MoreSamples.expiry_as_text
             (mkTokenData (VStr "valid-token") (VStr "refresh") (VStr "tomorrow"))).
  - split; reflexivity.
  - vm_compute. reflexivity.
  - reflexivity.
Defined.

Lemma exchange_code_needs_a_refresh_token_witness :
  fst (complete_login "code" "verifier"
         (MoreSamples.logged_out (Response 200 AuthSamples.body_without_refresh)))
  = Raise (KeyError "refresh_token").
Proof.
  destruct (exchange_code_needs_a_refresh_token "code" "verifier"
              (MoreSamples.logged_out (Response 200 AuthSamples.body_without_refresh))
              200 AuthSamples.body_without_refresh
              [("access_token", VStr "refreshed-access"); ("expires_in", VInt 3600)]
              (VStr "refreshed-access") 3600)
    as (_ & H & _).
  - reflexivity.
  - split; vm_compute; discriminate.
  - vm_compute. reflexivity.
  - reflexivity.
  - reflexivity.
  - reflexivity.
  - exact H.
Defined.




Lemma generate_pkce_sizes_witness :
  exists code_verifier code_challenge,
    generate_pkce AuthSamples.rfc7636_octets
    = Return (code_verifier, code_challenge)
    /\ String.length code_verifier = 43%nat
    /\ String.length code_challenge = 43%nat.
Proof.
  destruct (generate_pkce_sizes AuthSamples.rfc7636_octets)
    as (v & c & H & Hv & Hc & _).
  - reflexivity.
  - exists v, c. repeat split; assumption.
Defined.

End AuthWitnesses.

Lemma index_and_collection_keep_the_same_files_witness :
  exists index files,
    Indexer.build_index Samples.literal_pathspec default_context_config
      Samples.project = Return index
    /\ Collector._find_files Samples.literal_pathspec default_context_config
         Samples.project = Return files
    /\ forall k, In k (Dict.keys index) <-> In k (map rel_path files).
Proof.
  destruct (index_and_collection_keep_the_same_files
              Samples.literal_pathspec default_context_config Samples.project
              Samples.project_index_patterns
              MoreSamples.project_default_find_patterns
              (Samples.literal_spec Samples.project_index_patterns)
              (Samples.literal_spec MoreSamples.project_default_find_patterns))
    as (index & files & Hindex & Hfiles & _ & Hkeys & _).
  - vm_compute. reflexivity.
  - reflexivity.
  - vm_compute. reflexivity.
  - reflexivity.
  - intros f Hin. vm_compute in Hin.
    repeat (destruct Hin as [<-|Hin]; [reflexivity|]). contradiction.
  - exists index, files. split; [exact Hindex|]. split; [exact Hfiles|].
    exact Hkeys.
Defined.

Lemma failed_refresh_keeps_the_tokens_witness :
  fst (Auth.get_access_token AuthSamples.expiring_offline) = Return Json.VNone
  /\ Auth.AUTH_FILE (snd (Auth.get_access_token AuthSamples.expiring_offline))
     = Auth.AUTH_FILE AuthSamples.expiring_offline
  /\ Auth.refresh_attempts
       (snd (Auth.get_access_token
               (snd (Auth.get_access_token AuthSamples.expiring_offline))))
     = 2%nat.
Proof.
  destruct (failed_refresh_keeps_the_tokens AuthSamples.expiring_offline
              (Auth.token "expired-token" "refresh" 1060) 1060 RequestError
              (snd (Auth.refresh_tokens (Json.VStr "refresh")
                      (Auth.tick AuthSamples.expiring_offline))))
    as (Hnone & Hfile & _ & Hretry).
  - vm_compute. reflexivity.
  - reflexivity.
  - vm_compute. discriminate.
  - vm_compute. reflexivity.
  - split; [exact Hnone|]. split; [exact Hfile|].
    apply Hretry. vm_compute. discriminate.
Defined.
